(** * Dinnercaster widget: state reconciliation, verified against the source

    A shallow embedding of the React widget [src/dinnercaster/dinnercaster.jsx]
    and of its two sibling variants (a read-only one and a name-only one).

    JavaScript values are embedded as a small value type; property access,
    truthiness, [??], [||], spread and the array methods the widget uses are
    written out as they behave on JSON data.  A thrown [TypeError] is the
    [TypeError] result.  The impure platform calls ([crypto.randomUUID],
    [Date.now], [Math.random], [new Date], [toLocaleDateString],
    [JSON.stringify]) are fields of a [Host] record, and the number of draws
    made so far is threaded through the code as explicit state. *)

From Stdlib Require Import List String Ascii ZArith NArith Lia Bool Arith.
From Stdlib Require Import DecimalString DecimalPos.
Import ListNotations.

Local Open Scope list_scope.
Local Open Scope string_scope.

#[local] Set Warnings "-register-all".

(* ================================================================== *)
(** ** JavaScript values *)

(** The values a payload decoded from JSON can hold, plus [undefined].
    Numbers are the integers (the widget never computes on payload numbers;
    [NaN] is kept apart where [parseInt] and [Date] produce it).  An object is
    its list of own properties in insertion order; when a key is listed twice
    the later binding is the one that counts, as in [JSON.parse]. *)
Inductive JsVal : Type :=
| JUndefined
| JNull
| JBool (b : bool)
| JNum (n : Z)
| JStr (s : string)
| JArr (elems : list JsVal)
| JObj (props : list (string * JsVal)).

(** Outcome of running a piece of the widget: a value, or a thrown TypeError. *)
Inductive Res (A : Type) : Type :=
| Ok (a : A)
| TypeError (msg : string).
Arguments Ok {A} a.
Arguments TypeError {A} msg.

Definition res_bind {A B} (r : Res A) (k : A -> Res B) : Res B :=
  match r with
  | Ok a => k a
  | TypeError msg => TypeError msg
  end.

(** Code that may call [uid()] or [new Date()]: the state is the number of
    draws made from the host so far. *)
Definition M (A : Type) : Type := nat -> Res (A * nat).

Definition ret {A} (a : A) : M A := fun n => Ok (a, n).

Definition bind {A B} (c : M A) (k : A -> M B) : M B :=
  fun n => match c n with
           | Ok (a, n') => k a n'
           | TypeError msg => TypeError msg
           end.

Definition lift {A} (r : Res A) : M A :=
  fun n => match r with
           | Ok a => Ok (a, n)
           | TypeError msg => TypeError msg
           end.

Definition throw {A} (msg : string) : M A := fun _ => TypeError msg.

Declare Scope js_scope.
Delimit Scope js_scope with js.
Notation "x <- c ;; k" := (bind c (fun x => k))
  (at level 61, c at next level, right associativity) : js_scope.
Notation "x <~ r ;; k" := (res_bind r (fun x => k))
  (at level 61, r at next level, right associativity) : js_scope.
Local Open Scope js_scope.

(** [array.map(f)] calls [f] on the elements from left to right. *)
Fixpoint mapM {A B} (f : A -> M B) (l : list A) : M (list B) :=
  match l with
  | [] => ret []
  | x :: rest =>
      y <- f x ;;
      ys <- mapM f rest ;;
      ret (y :: ys)
  end.

Fixpoint res_mapM {A B} (f : A -> Res B) (l : list A) : Res (list B) :=
  match l with
  | [] => Ok []
  | x :: rest =>
      y <~ f x ;;
      ys <~ res_mapM f rest ;;
      Ok (y :: ys)
  end.

(** [array.filter(p)]: the elements [p] accepts, in their order. *)
Fixpoint res_filterM {A} (p : A -> Res bool) (l : list A) : Res (list A) :=
  match l with
  | [] => Ok []
  | x :: rest =>
      keep <~ p x ;;
      ys <~ res_filterM p rest ;;
      Ok (if keep then x :: ys else ys)
  end.

(** *** Truthiness, nullish values, typeof, strict equality *)

Definition truthy (v : JsVal) : bool :=
  match v with
  | JUndefined | JNull => false
  | JBool b => b
  | JNum n => negb (n =? 0)%Z
  | JStr s => negb (s =? "")%string
  | JArr _ | JObj _ => true
  end.

Definition nullish (v : JsVal) : bool :=
  match v with
  | JUndefined | JNull => true
  | _ => false
  end.

Definition typeof (v : JsVal) : string :=
  match v with
  | JUndefined => "undefined"
  | JNull => "object"
  | JBool _ => "boolean"
  | JNum _ => "number"
  | JStr _ => "string"
  | JArr _ | JObj _ => "object"
  end.

Definition primitive (v : JsVal) : bool :=
  match v with
  | JArr _ | JObj _ => false
  | _ => true
  end.

(** [a === b].  Primitives compare by value.  Arrays and objects compare by
    reference, which a value does not carry: two of them count as two
    distinct objects here, and the results below that depend on [===] take a
    primitive on one side, where the answer does not depend on references. *)
Definition strict_eq (a b : JsVal) : bool :=
  match a, b with
  | JUndefined, JUndefined => true
  | JNull, JNull => true
  | JBool x, JBool y => Bool.eqb x y
  | JNum x, JNum y => (x =? y)%Z
  | JStr x, JStr y => (x =? y)%string
  | _, _ => false
  end.

(** [a || b] and [a ?? b], for an already evaluated [b]. *)
Definition or_else (a b : JsVal) : JsVal := if truthy a then a else b.
Definition coalesce (a b : JsVal) : JsVal := if nullish a then b else a.

(** *** Properties *)

Fixpoint lookup (k : string) (ps : list (string * JsVal)) : option JsVal :=
  match ps with
  | [] => None
  | (k', v) :: rest =>
      match lookup k rest with
      | Some w => Some w
      | None => if (k =? k')%string then Some v else None
      end
  end.

Definition prop_or_undefined (k : string) (ps : list (string * JsVal)) : JsVal :=
  match lookup k ps with
  | Some v => v
  | None => JUndefined
  end.

(** [v.k] for the names the widget reads ([meals], [id], [date], [meal],
    [notes]): none of them is a built-in property of a string, a number, a
    boolean or an array, so on those the access yields [undefined]; on
    [undefined] and [null] it throws. *)
Definition get_prop (v : JsVal) (k : string) : Res JsVal :=
  match v with
  | JUndefined => TypeError ("Cannot read properties of undefined (reading '" ++ k ++ "')")
  | JNull => TypeError ("Cannot read properties of null (reading '" ++ k ++ "')")
  | JObj ps => Ok (prop_or_undefined k ps)
  | _ => Ok JUndefined
  end.

(** [v?.k] *)
Definition opt_chain (v : JsVal) (k : string) : JsVal :=
  match v with
  | JObj ps => prop_or_undefined k ps
  | _ => JUndefined
  end.

(** [obj[k] = v] on the property list: an existing key keeps its place. *)
Fixpoint set_prop (k : string) (v : JsVal) (ps : list (string * JsVal))
  : list (string * JsVal) :=
  match ps with
  | [] => [(k, v)]
  | (k', w) :: rest =>
      if (k =? k')%string then (k', v) :: rest else (k', w) :: set_prop k v rest
  end.

Definition string_of_nat (n : nat) : string :=
  NilZero.string_of_uint (Nat.to_uint n).

Definition string_of_Z (z : Z) : string :=
  NilZero.string_of_int (Z.to_int z).

Fixpoint chars (s : string) : list JsVal :=
  match s with
  | EmptyString => []
  | String c rest => JStr (String c EmptyString) :: chars rest
  end.

Fixpoint indexed (i : nat) (l : list JsVal) : list (string * JsVal) :=
  match l with
  | [] => []
  | x :: rest => (string_of_nat i, x) :: indexed (S i) rest
  end.

(** The own enumerable properties copied by an object spread [{...v}]. *)
Definition own_props (v : JsVal) : list (string * JsVal) :=
  match v with
  | JObj ps => ps
  | JArr l => indexed 0 l
  | JStr s => indexed 0 (chars s)
  | _ => []
  end.

Definition assign (target src : list (string * JsVal)) : list (string * JsVal) :=
  fold_left (fun acc kv => set_prop (fst kv) (snd kv) acc) src target.

(** [{ ...a, ...b }] *)
Definition spread2 (a b : JsVal) : JsVal :=
  JObj (assign (assign [] (own_props a)) (own_props b)).

(** The elements an array spread [[...v]] iterates over. *)
Definition spread_elems (v : JsVal) : Res (list JsVal) :=
  match v with
  | JArr l => Ok l
  | JStr s => Ok (chars s)
  | _ => TypeError "Spread syntax requires ...iterable[Symbol.iterator] to be a function"
  end.

(** [v.map(f)]: only an array has a callable [map]. *)
Definition array_map (v : JsVal) (f : JsVal -> M JsVal) : M JsVal :=
  match v with
  | JArr l => l' <- mapM f l ;; ret (JArr l')
  | JUndefined => throw "Cannot read properties of undefined (reading 'map')"
  | JNull => throw "Cannot read properties of null (reading 'map')"
  | _ => throw "map is not a function"
  end.

Definition array_map_pure (v : JsVal) (f : JsVal -> Res JsVal) : Res JsVal :=
  match v with
  | JArr l => l' <~ res_mapM f l ;; Ok (JArr l')
  | JUndefined => TypeError "Cannot read properties of undefined (reading 'map')"
  | JNull => TypeError "Cannot read properties of null (reading 'map')"
  | _ => TypeError "map is not a function"
  end.

Definition array_filter (v : JsVal) (p : JsVal -> Res bool) : Res JsVal :=
  match v with
  | JArr l => l' <~ res_filterM p l ;; Ok (JArr l')
  | JUndefined => TypeError "Cannot read properties of undefined (reading 'filter')"
  | JNull => TypeError "Cannot read properties of null (reading 'filter')"
  | _ => TypeError "filter is not a function"
  end.

(** *** Strings *)

Definition upper_ascii (c : ascii) : ascii :=
  let n := nat_of_ascii c in
  if (97 <=? n)%nat && (n <=? 122)%nat then ascii_of_nat (n - 32) else c.

(** [s.toUpperCase()] on ASCII text (base-36 digits, here). *)
Fixpoint toUpperCase (s : string) : string :=
  match s with
  | EmptyString => EmptyString
  | String c rest => String (upper_ascii c) (toUpperCase rest)
  end.

(** [s.slice(from, to)] for [0 <= from <= to]. *)
Definition slice (from to : nat) (s : string) : string :=
  substring from (to - from) s.

Fixpoint repeat_string (n : nat) (pad : string) : string :=
  match n with
  | O => EmptyString
  | S n' => pad ++ repeat_string n' pad
  end.

(** [s.padStart(width, "0")] *)
Definition padStart0 (width : nat) (s : string) : string :=
  repeat_string (width - String.length s) "0" ++ s.

Definition digit36 (d : N) : ascii :=
  if (d <? 10)%N then ascii_of_N (48 + d) else ascii_of_N (87 + d).

Fixpoint to_base36_aux (fuel : nat) (n : N) (acc : string) : string :=
  match fuel with
  | O => acc
  | S fuel' =>
      let acc' := String (digit36 (n mod 36)) acc in
      if (n / 36 =? 0)%N then acc' else to_base36_aux fuel' (n / 36) acc'
  end.

(** [n.toString(36)] for an integer [n]. *)
Definition toString36 (n : Z) : string :=
  let digits := to_base36_aux (S (N.size_nat (Z.abs_N n))) (Z.abs_N n) EmptyString in
  if (n <? 0)%Z then String "-" digits else digits.

(** [s.split("-")] *)
Fixpoint split_dash_aux (s : string) (cur : string) : list string :=
  match s with
  | EmptyString => [cur]
  | String c rest =>
      if Ascii.eqb c "-" then cur :: split_dash_aux rest EmptyString
      else split_dash_aux rest (cur ++ String c EmptyString)
  end.

Definition split_dash (s : string) : list string := split_dash_aux s EmptyString.

(** A JavaScript number that may be [NaN] ([None]). *)
Definition JsNum : Type := option Z.

Definition is_js_space (c : ascii) : bool :=
  let n := nat_of_ascii c in
  ((9 <=? n)%nat && (n <=? 13)%nat) || (n =? 32)%nat.

Fixpoint skip_spaces (s : string) : string :=
  match s with
  | String c rest => if is_js_space c then skip_spaces rest else s
  | EmptyString => EmptyString
  end.

Definition digit_value (c : ascii) : option Z :=
  let n := nat_of_ascii c in
  if (48 <=? n)%nat && (n <=? 57)%nat then Some (Z.of_nat (n - 48)) else None.

Fixpoint parse_digits (s : string) (acc : option Z) : option Z :=
  match s with
  | EmptyString => acc
  | String c rest =>
      match digit_value c with
      | Some d =>
          parse_digits rest
            (Some (10 * match acc with Some a => a | None => 0 end + d)%Z)
      | None => acc
      end
  end.

(** [parseInt(s, 10)]: leading white space, an optional sign, then the longest
    run of decimal digits; [NaN] when there is no digit. *)
Definition parseInt10 (s : string) : JsNum :=
  match skip_spaces s with
  | String "-" rest => option_map Z.opp (parse_digits rest None)
  | String "+" rest => parse_digits rest None
  | t => parse_digits t None
  end.

(** [x || 1] for a number [x]: [NaN] and [0] are falsy. *)
Definition num_or_1 (x : JsNum) : Z :=
  match x with
  | Some z => if (z =? 0)%Z then 1%Z else z
  | None => 1%Z
  end.

(** [String(x)] *)
Definition string_of_num (x : JsNum) : string :=
  match x with
  | Some z => string_of_Z z
  | None => "NaN"
  end.

Definition num_add (x : JsNum) (k : Z) : JsNum := option_map (fun z => (z + k)%Z) x.

(** [x === y] on numbers: [NaN] equals nothing. *)
Definition num_strict_eq (x y : JsNum) : bool :=
  match x, y with
  | Some a, Some b => (a =? b)%Z
  | _, _ => false
  end.

(* ================================================================== *)
(** ** The host platform *)

(** A [Date] is its time value in milliseconds, [NaN] for an invalid date. *)
Definition JsDate : Type := option Z.

(** The options object handed to [toLocaleDateString]. *)
Record DateOpts : Type := {
  month : string;
  day : string;
  year : option string;
  weekday : string
}.

(** What the widget asks of its platform.  The [nat] argument of an impure
    call is the number of draws made before it. *)
Record Host : Type := {
  (** [crypto.randomUUID], when [crypto] is defined and has it *)
  crypto_randomUUID : option (nat -> string);
  (** [Date.now()] *)
  Date_now : nat -> Z;
  (** [Math.random().toString(36)] *)
  Math_random_toString36 : nat -> string;
  (** [new Date()] *)
  Date_current : nat -> JsDate;
  (** [new Date(y, monthIndex, day)] *)
  Date_of_ymd : JsNum -> Z -> Z -> JsDate;
  getFullYear : JsDate -> JsNum;
  getMonth : JsDate -> JsNum;
  getDate : JsDate -> JsNum;
  (** [dt.toLocaleDateString(undefined, opts)] *)
  toLocaleDateString : JsDate -> DateOpts -> string;
  JSON_stringify : JsVal -> string
}.

(** The view model holding the records [l]: [{ meals: l }]. *)
Definition view_model (l : list JsVal) : JsVal := JObj [("meals", JArr l)].

(** The host's [toolOutput] global: the value together with the identity of
    the object holding it.  React re-runs an effect when a dependency is no
    longer the same object ([Object.is]); the widget's effects do nothing on a
    value that is not an object, so identity is only ever consulted there. *)
Record Delivery : Type := {
  addr : nat;
  payload : JsVal
}.

(** What the user and the host can do to a mounted widget. *)
Inductive Event : Type :=
| Deliver (d : Delivery)
| AddMeal
| DeleteMeal (id : JsVal)
| UpdateMeal (id : JsVal) (val : JsVal).

(* ================================================================== *)
(** ** [src/dinnercaster/dinnercaster.jsx] *)

Module Dinnercaster.

(** [uid()] *)
Definition uid (h : Host) : M JsVal :=
  fun n =>
    match crypto_randomUUID h with
    | Some randomUUID => Ok (JStr (randomUUID n), S n)
    | None =>
        Ok (JStr (toUpperCase
                    (toString36 (Date_now h n)
                     ++ slice 2 10 (Math_random_toString36 h n))), S n)
    end.

(** [formatDate(dateStr)], evaluated when [tick] draws have been made. *)
Definition formatDate (h : Host) (tick : nat) (dateStr : JsVal) : Res string :=
  if negb (truthy dateStr) then Ok ""
  else
    match dateStr with
    | JStr s =>
        let parts := split_dash s in
        if negb (List.length parts =? 3)%nat then Ok ""
        else
          let y := parseInt10 (nth 0 parts "") in
          let m := parseInt10 (nth 1 parts "") in
          let day := parseInt10 (nth 2 parts "") in
          let dt := Date_of_ymd h y (num_or_1 m - 1)%Z (num_or_1 day) in
          let now := Date_current h tick in
          let sameYear := num_strict_eq (getFullYear h dt) (getFullYear h now) in
          let opts :=
            if sameYear
            then {| month := "short"; day := "numeric"; year := None;
                    weekday := "short" |}
            else {| month := "short"; day := "numeric"; year := Some "numeric";
                    weekday := "short" |} in
          Ok (toLocaleDateString h dt opts)
    | _ => TypeError "dateStr.split is not a function"
    end.

(** The inner [addMealDefaults] of [buildInitialData]. *)
Definition addMealDefaults (h : Host) (m : JsVal) : M JsVal :=
  m_id <- lift (get_prop m "id") ;;
  id <- (if nullish m_id then uid h else ret m_id) ;;
  m_date <- lift (get_prop m "date") ;;
  m_meal <- lift (get_prop m "meal") ;;
  m_notes <- lift (get_prop m "notes") ;;
  ret (JObj [("id", id);
             ("date", if (typeof m_date =? "string")%string then m_date else JNull);
             ("meal", coalesce m_meal (JStr ""));
             ("notes", coalesce m_notes (JStr ""))]).

(** [buildInitialData(toolOutput)] *)
Definition buildInitialData (h : Host) (toolOutput : JsVal) : M JsVal :=
  meals <- array_map (or_else (opt_chain toolOutput "meals") (JArr []))
                     (addMealDefaults h) ;;
  ret (JObj [("meals", meals)]).

(** The initializer handed to [useWidgetState]. *)
Definition initialData (h : Host) (widgetState toolOutput : JsVal) : M JsVal :=
  if truthy (opt_chain widgetState "meals") then ret widgetState
  else if truthy (opt_chain toolOutput "meals") then buildInitialData h toolOutput
  else ret (JObj [("meals", JArr [])]).

(** [const meals = data?.meals || []] *)
Definition meals_of (data : JsVal) : JsVal :=
  or_else (opt_chain data "meals") (JArr []).

(** The body of the effect that depends on [toolOutput]; [data] is the
    state it may replace through [setData]. *)
Definition syncToolOutput (h : Host) (toolOutput data : JsVal) : M JsVal :=
  if truthy (opt_chain toolOutput "meals") then buildInitialData h toolOutput
  else ret data.

(** The template literal of [addMeal]: the local date [today] as
    [YYYY-MM-DD], month and day padded to two digits. *)
Definition dateStr_of (h : Host) (today : JsDate) : string :=
  string_of_num (getFullYear h today) ++ "-"
  ++ padStart0 2 (string_of_num (num_add (getMonth h today) 1)) ++ "-"
  ++ padStart0 2 (string_of_num (getDate h today)).

(** [addMeal]: the id and the date are taken first, then the updater it
    passes to [setData] is applied to [prev]. *)
Definition addMeal (h : Host) (prev : JsVal) : M JsVal :=
  newId <- uid h ;;
  fun n =>
    let today := Date_current h n in
    let dateStr := dateStr_of h today in
    (prev_meals <~ get_prop prev "meals" ;;
     old <~ spread_elems prev_meals ;;
     Ok (JObj [("meals",
                JArr (JObj [("id", newId); ("meal", JStr "");
                            ("notes", JStr ""); ("date", JStr dateStr)]
                      :: old))], n)).

(** [deleteMealById(id)]: its updater applied to [prev]. *)
Definition deleteMealById (id : JsVal) (prev : JsVal) : Res JsVal :=
  prev_meals <~ get_prop prev "meals" ;;
  kept <~ array_filter prev_meals
            (fun m => m_id <~ get_prop m "id" ;; Ok (negb (strict_eq m_id id))) ;;
  Ok (JObj [("meals", kept)]).

(** [updateMealById(id, val)]: its updater applied to [prev]. *)
Definition updateMealById (id val : JsVal) (prev : JsVal) : Res JsVal :=
  prev_meals <~ get_prop prev "meals" ;;
  mapped <~ array_map_pure prev_meals
              (fun m => m_id <~ get_prop m "id" ;;
                        Ok (if strict_eq m_id id then spread2 m val else m)) ;;
  Ok (JObj [("meals", mapped)]).

(** The mounted component: the cached view model, the number of host draws
    made, and the [toolOutput] the effect last ran for. *)
Record App : Type := {
  data : JsVal;
  draws : nat;
  seen : option Delivery
}.

(** Modelled from the spec: the hook [useWidgetState] ([src/use-widget-state]
    is not among the sources) as a state cell that starts at the value of
    its initializer, is replaced by [setData(v)] and by [setData(f)] with
    [f] applied to the previous value "immediately and synchronously". *)
Definition setData (a : App) (r : Res (JsVal * nat)) : Res App :=
  match r with
  | Ok (v, n) => Ok {| data := v; draws := n; seen := seen a |}
  | TypeError msg => TypeError msg
  end.

(** The effect with dependency list [[toolOutput]]: it runs after the
    first render and whenever [toolOutput] is another object than the one
    it last ran for. *)
Definition deliver (h : Host) (a : App) (d : Delivery) : Res App :=
  match seen a with
  | Some d0 =>
      if (addr d0 =? addr d)%nat then Ok a
      else
        setData {| data := data a; draws := draws a; seen := Some d |}
                (syncToolOutput h (payload d) (data a) (draws a))
  | None =>
      setData {| data := data a; draws := draws a; seen := Some d |}
              (syncToolOutput h (payload d) (data a) (draws a))
  end.

(** First render and the effects that follow it. *)
Definition mount (h : Host) (widgetState : JsVal) (d : Delivery) (n : nat)
  : Res App :=
  match initialData h widgetState (payload d) n with
  | Ok (v, n') => deliver h {| data := v; draws := n'; seen := None |} d
  | TypeError msg => TypeError msg
  end.

Definition step (h : Host) (a : App) (e : Event) : Res App :=
  match e with
  | Deliver d => deliver h a d
  | AddMeal => setData a (addMeal h (data a) (draws a))
  | DeleteMeal id => setData a (lift (deleteMealById id (data a)) (draws a))
  | UpdateMeal id val => setData a (lift (updateMealById id val (data a)) (draws a))
  end.

Fixpoint run (h : Host) (a : App) (es : list Event) : Res App :=
  match es with
  | [] => Ok a
  | e :: rest => a' <~ step h a e ;; run h a' rest
  end.

End Dinnercaster.

(* ================================================================== *)
(** ** The read-only variant of the widget

    The sibling [App] that only lists the meals; it remembers the meals it
    last synced in [lastSyncedToolOutputRef]. *)

Module ReadOnly.

(** The initializer handed to [useWidgetState]. *)
Definition initialData (widgetState toolOutput : JsVal) : JsVal :=
  JObj [("meals",
         or_else (or_else (opt_chain widgetState "meals")
                          (opt_chain toolOutput "meals"))
                 (JArr []))].

Record App : Type := {
  data : JsVal;
  lastSyncedToolOutputRef : JsVal;
  seen : option Delivery
}.

(** The body of the effect that depends on [toolOutput]. *)
Definition syncToolOutput (h : Host) (toolOutput : JsVal) (a : App) : App :=
  let toolOutputMeals := opt_chain toolOutput "meals" in
  let lastSyncedMeals := lastSyncedToolOutputRef a in
  if truthy toolOutputMeals
     && negb (JSON_stringify h toolOutputMeals =? JSON_stringify h lastSyncedMeals)%string
  then {| data := JObj [("meals", toolOutputMeals)];
          lastSyncedToolOutputRef := toolOutputMeals;
          seen := seen a |}
  else a.

Definition deliver (h : Host) (a : App) (d : Delivery) : App :=
  let a' := {| data := data a;
               lastSyncedToolOutputRef := lastSyncedToolOutputRef a;
               seen := Some d |} in
  match seen a with
  | Some d0 => if (addr d0 =? addr d)%nat then a else syncToolOutput h (payload d) a'
  | None => syncToolOutput h (payload d) a'
  end.

Definition mount (h : Host) (widgetState : JsVal) (d : Delivery) : App :=
  deliver h {| data := initialData widgetState (payload d);
               lastSyncedToolOutputRef := JNull;
               seen := None |} d.

End ReadOnly.

(* ================================================================== *)
(** ** The name-only variant of the widget

    The sibling [App] whose records carry an id and a meal name only. *)

Module NameOnly.

(** [uid()], the same text as in [dinnercaster.jsx]. *)
Definition uid (h : Host) : M JsVal := Dinnercaster.uid h.

Definition addMealDefaults (h : Host) (m : JsVal) : M JsVal :=
  m_id <- lift (get_prop m "id") ;;
  id <- (if nullish m_id then uid h else ret m_id) ;;
  m_meal <- lift (get_prop m "meal") ;;
  ret (JObj [("id", id); ("meal", coalesce m_meal (JStr ""))]).

(** [buildInitialData(toolOutput, widgetState)] *)
Definition buildInitialData (h : Host) (toolOutput widgetState : JsVal) : M JsVal :=
  meals <- array_map
             (or_else (or_else (opt_chain widgetState "meals")
                               (opt_chain toolOutput "meals"))
                      (JArr []))
             (addMealDefaults h) ;;
  ret (JObj [("meals", meals)]).

Definition initialData (h : Host) (widgetState toolOutput : JsVal) : M JsVal :=
  buildInitialData h toolOutput widgetState.

Definition syncToolOutput (h : Host) (toolOutput data : JsVal) : M JsVal :=
  if truthy (opt_chain toolOutput "meals")
  then buildInitialData h toolOutput JUndefined
  else ret data.

Definition addMeal (h : Host) (prev : JsVal) : M JsVal :=
  newId <- uid h ;;
  prev_meals <- lift (get_prop prev "meals") ;;
  old <- lift (spread_elems prev_meals) ;;
  ret (JObj [("meals", JArr (JObj [("id", newId); ("meal", JStr "")] :: old))]).

Definition updateMealById (id val : JsVal) (prev : JsVal) : Res JsVal :=
  prev_meals <~ get_prop prev "meals" ;;
  mapped <~ array_map_pure prev_meals
              (fun m => m_id <~ get_prop m "id" ;;
                        Ok (if strict_eq m_id id then spread2 m val else m)) ;;
  Ok (JObj [("meals", mapped)]).

End NameOnly.

(* ================================================================== *)
(** ** A concrete host and concrete payloads, for running the code *)

(** A host without [crypto]: ids come from the clock and [Math.random]. *)
Definition clock_host : Host := {|
  crypto_randomUUID := None;
  Date_now := fun n => (1764547200000 + Z.of_nat n)%Z;
  Math_random_toString36 := fun _ => "0.4fzyo82mvyr";
  Date_current := fun _ => Some 1764547200000%Z;
  Date_of_ymd := fun y m d =>
    match y with
    | Some y' => Some (((y' * 12 + m) * 31 + d) * 86400000)%Z
    | None => None
    end;
  getFullYear := fun dt => option_map (fun _ => 2025%Z) dt;
  getMonth := fun dt => option_map (fun _ => 11%Z) dt;
  getDate := fun dt => option_map (fun _ => 1%Z) dt;
  toLocaleDateString := fun dt _ =>
    match dt with
    | Some t => "day " ++ string_of_Z (t / 86400000)
    | None => "Invalid Date"
    end;
  JSON_stringify := fun v =>
    match v with
    | JNull => "null"
    | JArr l => "[" ++ string_of_nat (List.length l) ++ "]"
    | _ => "?"
    end
|}.

(** A host with [crypto.randomUUID]. *)
Definition uuid_host : Host := {|
  crypto_randomUUID := Some (fun _ => "3b241101-e2bb-4255-8caf-4136c566a962");
  Date_now := Date_now clock_host;
  Math_random_toString36 := Math_random_toString36 clock_host;
  Date_current := Date_current clock_host;
  Date_of_ymd := Date_of_ymd clock_host;
  getFullYear := getFullYear clock_host;
  getMonth := getMonth clock_host;
  getDate := getDate clock_host;
  toLocaleDateString := toLocaleDateString clock_host;
  JSON_stringify := JSON_stringify clock_host
|}.

Definition tacos : JsVal :=
  JObj [("id", JStr "a1"); ("date", JStr "2025-12-01");
        ("meal", JStr "Tacos"); ("notes", JStr "")].

Definition ramen : JsVal :=
  JObj [("id", JStr "b2"); ("date", JStr "2025-12-02");
        ("meal", JStr "Ramen"); ("notes", JStr "extra egg")].

(** What [show_meals] returned: two meals. *)
Definition two_meals : JsVal := JObj [("meals", JArr [tacos; ramen])].

(** *** Predicates used to state the results *)

(** The id of a record as the widget reads it ([m.id] on a record that is
    neither [null] nor [undefined]). *)
Definition id_of (m : JsVal) : JsVal := opt_chain m "id".

(** A record the widget can read a property of. *)
Definition readable (m : JsVal) : bool := negb (nullish m).

(** The ids of the records the widget renders, [(data?.meals || []).map(m => m.id)]. *)
Definition record_ids (data : JsVal) : list JsVal :=
  match Dinnercaster.meals_of data with
  | JArr l => map id_of l
  | _ => []
  end.

(** An edit value [val] that touches only the [meal] and [notes] fields. *)
Definition edits_meal_or_notes (val : JsVal) : bool :=
  forallb (fun kv => (fst kv =? "meal") || (fst kv =? "notes")) (own_props val).

(** The value a date field can hold: a string, or absent. *)
Definition date_or_absent (v : JsVal) : bool :=
  match v with
  | JUndefined | JNull | JStr _ => true
  | _ => false
  end.

(** The id the host hands out at draw [k]. *)
Definition uid_at (h : Host) (k : nat) : JsVal :=
  match Dinnercaster.uid h k with
  | Ok (v, _) => v
  | TypeError _ => JUndefined
  end.

(** The generator never repeats itself. *)
Definition uid_never_repeats (h : Host) : Prop :=
  forall i j, uid_at h i = uid_at h j -> i = j.

(** The ids that are present among the records [l]. *)
Definition present_ids (l : list JsVal) : list JsVal :=
  filter (fun v => negb (nullish v)) (map id_of l).

(** Records of a payload: readable, the ids they carry pairwise distinct and
    none of them an id the generator hands out. *)
Definition records_distinct (h : Host) (l : list JsVal) : Prop :=
  Forall (fun m => readable m = true) l
  /\ NoDup (present_ids l)
  /\ (forall v k, In v (present_ids l) -> uid_at h k <> v).

Definition payload_distinct (h : Host) (toolOutput : JsVal) : Prop :=
  truthy (opt_chain toolOutput "meals") = false
  \/ exists l, opt_chain toolOutput "meals" = JArr l /\ records_distinct h l.

(** A cached state found at mount time, [n] draws into the host. *)
Definition cache_distinct (h : Host) (n : nat) (widgetState : JsVal) : Prop :=
  truthy (opt_chain widgetState "meals") = false
  \/ exists l, opt_chain widgetState "meals" = JArr l
       /\ Forall (fun m => readable m = true) l
       /\ NoDup (map id_of l)
       /\ (forall m k, In m l -> n <= k -> uid_at h k <> id_of m).

Definition event_distinct (h : Host) (e : Event) : Prop :=
  match e with
  | Deliver d => payload_distinct h (payload d)
  | UpdateMeal _ val => edits_meal_or_notes val = true
  | AddMeal | DeleteMeal _ => True
  end.

(** A host whose generator visibly never repeats: the [k]-th id has [k]
    letters after its prefix. *)
Definition counting_host : Host := {|
  crypto_randomUUID := Some (fun n => "uuid-" ++ repeat_string n "x");
  Date_now := Date_now clock_host;
  Math_random_toString36 := Math_random_toString36 clock_host;
  Date_current := Date_current clock_host;
  Date_of_ymd := Date_of_ymd clock_host;
  getFullYear := getFullYear clock_host;
  getMonth := getMonth clock_host;
  getDate := getDate clock_host;
  toLocaleDateString := toLocaleDateString clock_host;
  JSON_stringify := JSON_stringify clock_host
|}.

(** A payload in which two records carry the same id. *)
Definition twin_meals : JsVal := JObj [("meals", JArr [tacos; tacos])].

(** The record [addMealDefaults] builds for [m] once its id is settled. *)
Definition record_with_id (id m : JsVal) : JsVal :=
  JObj [("id", id);
        ("date", if (typeof (opt_chain m "date") =? "string")%string
                 then opt_chain m "date" else JNull);
        ("meal", coalesce (opt_chain m "meal") (JStr ""));
        ("notes", coalesce (opt_chain m "notes") (JStr ""))].

(** How a built record relates to the payload record it comes from, when
    the build started at draw [n] and ended at draw [n']: the id is the
    payload's when it has one, and one drawn in between otherwise. *)
Definition id_kept_or_drawn (h : Host) (n n' : nat) (m r : JsVal) : Prop :=
  (nullish (id_of m) = false /\ id_of r = id_of m)
  \/ (nullish (id_of m) = true
      /\ exists k, n <= k < n' /\ Dinnercaster.uid h k = Ok (id_of r, S k)).

(** The keys of a property list. *)
Definition keys (ps : list (string * JsVal)) : list string := map fst ps.

(** What [updateMealById(id, val)] does to one record. *)
Definition edit_record (id val m : JsVal) : JsVal :=
  if strict_eq (id_of m) id then spread2 m val else m.

(** The test of [deleteMealById(id)]: [m.id !== id]. *)
Definition other_id (id m : JsVal) : bool := negb (strict_eq (id_of m) id).

(** The widget after [two_meals] was applied and the user retyped the first
    meal name. *)
Definition edited_app : Dinnercaster.App :=
  {| Dinnercaster.data :=
       view_model [JObj [("id", JStr "a1"); ("date", JStr "2025-12-01");
                         ("meal", JStr "Tac"); ("notes", JStr "")];
                   ramen];
     Dinnercaster.draws := 0;
     Dinnercaster.seen := Some {| addr := 1; payload := two_meals |} |}.

(** The invariant of the mounted widget: its meals are an array of readable
    records whose ids are pairwise distinct, none of them an id the host has
    yet to hand out. *)
Definition ids_distinct (h : Host) (a : Dinnercaster.App) : Prop :=
  exists l,
    get_prop (Dinnercaster.data a) "meals" = Ok (JArr l)
    /\ Forall (fun m => readable m = true) l
    /\ NoDup (map id_of l)
    /\ (forall m k, In m l -> Dinnercaster.draws a <= k -> uid_at h k <> id_of m).

(** A payload whose second record has no id. *)
Definition soup_without_id : JsVal :=
  JObj [("meals", JArr [ramen; JObj [("meal", JStr "Soup")]])].

(** The shape [addMealDefaults] gives every record: the four fields in this
    order, an id, a meal name and notes that are neither [null] nor
    [undefined], and a date that is a string or [null]. *)
Definition normalised_record (r : JsVal) : Prop :=
  exists id date meal notes,
    r = JObj [("id", id); ("date", date); ("meal", meal); ("notes", notes)]
    /\ nullish id = false
    /\ (date = JNull \/ exists s, date = JStr s)
    /\ nullish meal = false
    /\ nullish notes = false.

(** What reading the property [k] of [{ ...m, ...val }] gives. *)
Definition merged_prop (m val : JsVal) (k : string) : JsVal :=
  match lookup k (own_props val) with
  | Some v => v
  | None => prop_or_undefined k (own_props m)
  end.

(** The number a run of decimal digits stands for, read from the left with
    [a] accumulated so far. *)
Fixpoint dec_value (d : Decimal.uint) (a : Z) : Z :=
  match d with
  | Decimal.Nil => a
  | Decimal.D0 d' => dec_value d' (10 * a + 0)
  | Decimal.D1 d' => dec_value d' (10 * a + 1)
  | Decimal.D2 d' => dec_value d' (10 * a + 2)
  | Decimal.D3 d' => dec_value d' (10 * a + 3)
  | Decimal.D4 d' => dec_value d' (10 * a + 4)
  | Decimal.D5 d' => dec_value d' (10 * a + 5)
  | Decimal.D6 d' => dec_value d' (10 * a + 6)
  | Decimal.D7 d' => dec_value d' (10 * a + 7)
  | Decimal.D8 d' => dec_value d' (10 * a + 8)
  | Decimal.D9 d' => dec_value d' (10 * a + 9)
  end%Z.

(** A string without a dash in it. *)
Fixpoint no_dash (s : string) : bool :=
  match s with
  | EmptyString => true
  | String c rest => negb (Ascii.eqb c "-") && no_dash rest
  end.

(** A string that starts with a decimal digit. *)
Definition starts_with_digit (s : string) : bool :=
  match s with
  | String c _ => match digit_value c with Some _ => true | None => false end
  | EmptyString => false
  end.

(** The read-only widget taking the deliveries [ds] one after the other. *)
Definition ReadOnly_run (h : Host) (a : ReadOnly.App) (ds : list Delivery)
  : ReadOnly.App :=
  fold_left (ReadOnly.deliver h) ds a.

(** What the read-only widget keeps true: either it has synced nothing yet
    and shows [initial], or it shows the meals it last synced, which are the
    truthy meals of one of the payloads [delivered]. *)
Definition ReadOnly_tracks (initial : JsVal) (delivered : list Delivery)
    (a : ReadOnly.App) : Prop :=
  (ReadOnly.lastSyncedToolOutputRef a = JNull /\ ReadOnly.data a = initial)
  \/ (truthy (ReadOnly.lastSyncedToolOutputRef a) = true
      /\ ReadOnly.data a = JObj [("meals", ReadOnly.lastSyncedToolOutputRef a)]
      /\ exists d, In d delivered
                   /\ ReadOnly.lastSyncedToolOutputRef a = opt_chain (payload d) "meals").

(** A payload the widget can take: no meals, or an array of records none of
    which is [null] or [undefined]. *)
Definition payload_wellformed (toolOutput : JsVal) : Prop :=
  truthy (opt_chain toolOutput "meals") = false
  \/ exists l, opt_chain toolOutput "meals" = JArr l
               /\ Forall (fun m => readable m = true) l.

(** An event the handlers are written for: such a payload, or an id that is
    a primitive, as the ids of the data model are. *)
Definition event_wellformed (e : Event) : Prop :=
  match e with
  | Deliver d => payload_wellformed (payload d)
  | UpdateMeal id _ => primitive id = true
  | DeleteMeal id => primitive id = true
  | AddMeal => True
  end.

(** The state of a widget whose handlers run: its meals are an array of
    records none of which is [null] or [undefined]. *)
Definition holds_records (a : Dinnercaster.App) : Prop :=
  exists l, get_prop (Dinnercaster.data a) "meals" = Ok (JArr l)
            /\ Forall (fun m => readable m = true) l.

(** How a built record [r] relates to the payload record [m] it is built
    from, in a build that started at draw [n] and ended at draw [n']: the four
    fields of [addMealDefaults], the id being the one of [m] when it has one
    and one drawn from [uid()] during the build otherwise. *)
Definition built_from (h : Host) (n n' : nat) (m r : JsVal) : Prop :=
  exists id,
    r = JObj [("id", id);
              ("date", if (typeof (opt_chain m "date") =? "string")%string
                       then opt_chain m "date" else JNull);
              ("meal", if nullish (opt_chain m "meal")
                       then JStr "" else opt_chain m "meal");
              ("notes", if nullish (opt_chain m "notes")
                        then JStr "" else opt_chain m "notes")]
    /\ ((nullish (opt_chain m "id") = false /\ id = opt_chain m "id")
        \/ (nullish (opt_chain m "id") = true
            /\ exists k, n <= k < n' /\ Dinnercaster.uid h k = Ok (id, S k))).

(** A payload whose meals field is there but [null]. *)
Definition null_meals : JsVal := JObj [("meals", JNull)].

(* ================================================================== *)
(** ** Basic facts about the embedded JavaScript operations *)

Section PropertyAccess.

Lemma get_prop_readable (m : JsVal) (k : string) :
  readable m = true -> get_prop m k = Ok (opt_chain m k).
Proof.
  destruct m; simpl; intros H; try reflexivity; discriminate H.
Qed.

Lemma view_model_meals (l : list JsVal) :
  get_prop (view_model l) "meals" = Ok (JArr l).
Proof. reflexivity. Qed.

Lemma falsy_or_else (v w : JsVal) : truthy v = false -> or_else v w = w.
Proof. unfold or_else; intros ->; reflexivity. Qed.

Lemma truthy_or_else (v w : JsVal) : truthy v = true -> or_else v w = v.
Proof. unfold or_else; intros ->; reflexivity. Qed.

Lemma truthy_not_nullish (v : JsVal) : truthy v = true -> nullish v = false.
Proof. destruct v; simpl; intros H; try reflexivity; discriminate H. Qed.

End PropertyAccess.

(* ================================================================== *)
(** ** Initial load *)

Section InitialLoad.

Variable h : Host.

(** The three cases of the initializer, as it chooses among its sources. *)
Lemma initializer_chooses_source (widgetState toolOutput : JsVal) (n : nat) :
  (truthy (opt_chain widgetState "meals") = true ->
     Dinnercaster.initialData h widgetState toolOutput n = Ok (widgetState, n))
  /\ (truthy (opt_chain widgetState "meals") = false ->
      truthy (opt_chain toolOutput "meals") = true ->
        Dinnercaster.initialData h widgetState toolOutput n
        = Dinnercaster.buildInitialData h toolOutput n)
  /\ (truthy (opt_chain widgetState "meals") = false ->
      truthy (opt_chain toolOutput "meals") = false ->
        Dinnercaster.initialData h widgetState toolOutput n = Ok (view_model [], n)).
Proof.
  unfold Dinnercaster.initialData.
  repeat split.
  - intros ->; reflexivity.
  - intros -> ->; reflexivity.
  - intros -> ->; reflexivity.
Qed.

(** The read-only variant applies the same precedence to the meals it
    wraps. *)
Lemma ReadOnly_initial_precedence (widgetState toolOutput : JsVal) :
  ReadOnly.initialData widgetState toolOutput
  = JObj [("meals",
           if truthy (opt_chain widgetState "meals") then opt_chain widgetState "meals"
           else if truthy (opt_chain toolOutput "meals") then opt_chain toolOutput "meals"
           else JArr [])].
Proof.
  unfold ReadOnly.initialData, or_else.
  destruct (truthy (opt_chain widgetState "meals")) eqn:Hw.
  - rewrite Hw; reflexivity.
  - reflexivity.
Qed.

(** The name-only variant rebuilds its records from the same choice of
    source. *)
Lemma NameOnly_initial_precedence (widgetState toolOutput : JsVal) (n : nat) :
  NameOnly.initialData h widgetState toolOutput n
  = (meals <- array_map
                (if truthy (opt_chain widgetState "meals")
                 then opt_chain widgetState "meals"
                 else if truthy (opt_chain toolOutput "meals")
                      then opt_chain toolOutput "meals"
                      else JArr [])
                (NameOnly.addMealDefaults h) ;;
     ret (JObj [("meals", meals)])) n.
Proof.
  unfold NameOnly.initialData, NameOnly.buildInitialData, or_else.
  destruct (truthy (opt_chain widgetState "meals")) eqn:Hw.
  - rewrite Hw; reflexivity.
  - reflexivity.
Qed.

End InitialLoad.

(* ================================================================== *)
(** ** Adding a blank record *)

(** [addMeal] with its two binds run: the record it puts first, in terms of
    [uid] and of the template literal. *)
Lemma addMeal_prepends (h : Host) (l : list JsVal) (n : nat) :
  exists newId,
    Dinnercaster.uid h n = Ok (newId, S n)
    /\ Dinnercaster.addMeal h (view_model l) n
       = Ok (view_model
               (JObj [("id", newId); ("meal", JStr ""); ("notes", JStr "");
                      ("date", JStr (Dinnercaster.dateStr_of h (Date_current h (S n))))]
                :: l),
             S n).
Proof.
  unfold Dinnercaster.addMeal, Dinnercaster.uid, bind.
  destruct (crypto_randomUUID h) as [randomUUID|]; eexists; split; reflexivity.
Qed.

(** The date of a new record on the first of December 2025. *)
Example addMeal_date_example :
  Dinnercaster.dateStr_of clock_host (Date_current clock_host 1) = "2025-12-01".
Proof. reflexivity. Qed.

(* ================================================================== *)
(** ** Building the view model from a server payload *)

Section Build.

Variable h : Host.

Lemma uid_draw (n : nat) : Dinnercaster.uid h n = Ok (uid_at h n, S n).
Proof.
  unfold uid_at, Dinnercaster.uid.
  destruct (crypto_randomUUID h); reflexivity.
Qed.

Lemma addMealDefaults_readable (m : JsVal) (n : nat) :
  readable m = true ->
  Dinnercaster.addMealDefaults h m n
  = if nullish (id_of m)
    then Ok (record_with_id (uid_at h n) m, S n)
    else Ok (record_with_id (id_of m) m, n).
Proof.
  intros Hm.
  unfold Dinnercaster.addMealDefaults, bind, lift.
  rewrite !get_prop_readable by assumption.
  fold (id_of m).
  destruct (nullish (id_of m)).
  - rewrite uid_draw. reflexivity.
  - reflexivity.
Qed.

Lemma addMealDefaults_unreadable (m : JsVal) (n : nat) :
  readable m = false ->
  exists msg, Dinnercaster.addMealDefaults h m n = TypeError msg.
Proof.
  destruct m; simpl; intros H; try discriminate H;
    unfold Dinnercaster.addMealDefaults, bind, lift; simpl; eexists; reflexivity.
Qed.

(** Mapping [addMealDefaults] over readable records succeeds, one record
    out per record in, drawing ids only forwards. *)
Lemma mapM_addMealDefaults (l : list JsVal) :
  Forall (fun m => readable m = true) l ->
  forall n, exists l' n',
    mapM (Dinnercaster.addMealDefaults h) l n = Ok (l', n')
    /\ n <= n'
    /\ Forall2 (fun m r =>
                  exists k, n <= k
                    /\ (if nullish (id_of m) then S k else k) <= n'
                    /\ r = if nullish (id_of m)
                           then record_with_id (uid_at h k) m
                           else record_with_id (id_of m) m) l l'.
Proof.
  induction 1 as [|m t Hm Ht IH]; intros n.
  - exists [], n. repeat split; auto.
  - destruct (IH (if nullish (id_of m) then S n else n)) as (t' & n' & Ht' & Hle & Hall).
    exists ((if nullish (id_of m)
             then record_with_id (uid_at h n) m
             else record_with_id (id_of m) m) :: t'), n'.
    assert (Hstep : n <= (if nullish (id_of m) then S n else n))
      by (destruct (nullish (id_of m)); lia).
    split; [| split].
    + simpl. unfold bind at 1.
      rewrite (addMealDefaults_readable m n Hm).
      destruct (nullish (id_of m)); unfold bind at 1; rewrite Ht'; reflexivity.
    + lia.
    + constructor.
      * exists n. split; [lia | split; [exact Hle | reflexivity]].
      * eapply Forall2_impl; [| exact Hall].
        intros a b (k & Hk & Hk' & Hak).
        exists k. repeat split; trivial; lia.
Qed.

Lemma buildInitialData_array (toolOutput : JsVal) (l : list JsVal) (n : nat) :
  opt_chain toolOutput "meals" = JArr l ->
  Dinnercaster.buildInitialData h toolOutput n
  = match mapM (Dinnercaster.addMealDefaults h) l n with
    | Ok (l', n') => Ok (view_model l', n')
    | TypeError msg => TypeError msg
    end.
Proof.
  intros Hl.
  unfold Dinnercaster.buildInitialData, array_map, bind, ret.
  rewrite Hl. simpl.
  destruct (mapM (Dinnercaster.addMealDefaults h) l n) as [[l' n']|msg]; reflexivity.
Qed.

(** Building from an array of records: one built record per payload record,
    in order, each made of the fields of its payload record. *)
Lemma buildInitialData_from_array (toolOutput : JsVal) (l : list JsVal) (n : nat) :
  opt_chain toolOutput "meals" = JArr l ->
  Forall (fun m => readable m = true) l ->
  exists l' n',
    Dinnercaster.buildInitialData h toolOutput n = Ok (view_model l', n')
    /\ n <= n'
    /\ Forall2 (built_from h n n') l l'.
Proof.
  intros Hl Hread.
  destruct (mapM_addMealDefaults l Hread n) as (l' & n' & Hrun & Hle & Hrel).
  exists l', n'. split; [| split; [exact Hle |]].
  - rewrite (buildInitialData_array _ _ _ Hl), Hrun. reflexivity.
  - eapply Forall2_impl; [| exact Hrel].
    intros m r (k & Hk & Hk' & ->).
    unfold built_from. fold (id_of m).
    destruct (nullish (id_of m)) eqn:Hid.
    + exists (uid_at h k). split; [reflexivity |].
      right. split; [reflexivity |].
      exists k. split; [lia | apply uid_draw].
    + exists (id_of m). split; [reflexivity |].
      left. split; reflexivity.
Qed.

Lemma buildInitialData_falsy (toolOutput : JsVal) (n : nat) :
  truthy (opt_chain toolOutput "meals") = false ->
  Dinnercaster.buildInitialData h toolOutput n = Ok (view_model [], n).
Proof.
  intros Hf.
  unfold Dinnercaster.buildInitialData.
  rewrite (falsy_or_else _ _ Hf). reflexivity.
Qed.

(** C5, as amended. A payload whose meals field is missing, [null] or
    otherwise falsy builds the empty collection and raises nothing; a
    payload whose meals field is an array without a [null] or [undefined]
    element builds one record per element and raises nothing; and the
    fallback [data?.meals || []] used for rendering yields the empty array on
    a state without meals. *)
Theorem buildInitialData_defaults_absent_meals (toolOutput : JsVal) (n : nat) :
  (truthy (opt_chain toolOutput "meals") = false ->
     Dinnercaster.buildInitialData h toolOutput n = Ok (view_model [], n))
  /\ (forall l, opt_chain toolOutput "meals" = JArr l ->
        Forall (fun m => readable m = true) l ->
        exists l' n',
          Dinnercaster.buildInitialData h toolOutput n = Ok (view_model l', n')
          /\ List.length l' = List.length l)
  /\ (forall data, truthy (opt_chain data "meals") = false ->
        Dinnercaster.meals_of data = JArr []).
Proof.
  split; [| split].
  - apply buildInitialData_falsy.
  - intros l Hl Hall.
    destruct (mapM_addMealDefaults l Hall n) as (l' & n' & Hrun & _ & Hrel).
    exists l', n'. split.
    + rewrite (buildInitialData_array _ _ _ Hl), Hrun. reflexivity.
    + symmetry. eapply Forall2_length; eassumption.
  - intros data Hd. unfold Dinnercaster.meals_of.
    apply falsy_or_else; assumption.
Qed.

End Build.

(** C5 fails on a malformed payload: a meals field that is a string is not
    treated as absent, the build throws. *)
Lemma buildInitialData_throws_on_string_meals :
  Dinnercaster.buildInitialData clock_host (JObj [("meals", JStr "soup")]) 0
  = TypeError "map is not a function".
Proof. reflexivity. Qed.

(** A [null] among the records makes the build throw as well. *)
Example buildInitialData_throws_on_null_record :
  Dinnercaster.buildInitialData clock_host (JObj [("meals", JArr [tacos; JNull])]) 0
  = TypeError "Cannot read properties of null (reading 'id')".
Proof. reflexivity. Qed.

Lemma buildInitialData_defaults_absent_meals_witness :
  Dinnercaster.buildInitialData clock_host (JObj [("meals", JNull)]) 0
  = Ok (view_model [], 0)
  /\ (exists l' n',
        Dinnercaster.buildInitialData clock_host two_meals 0 = Ok (view_model l', n')
        /\ List.length l' = 2)
  /\ Dinnercaster.meals_of JUndefined = JArr [].
Proof.
  pose proof (buildInitialData_defaults_absent_meals clock_host) as H.
  split; [| split].
  - apply (proj1 (H (JObj [("meals", JNull)]) 0)). reflexivity.
  - apply (proj1 (proj2 (H two_meals 0)) [tacos; ramen]).
    + reflexivity.
    + repeat constructor.
  - apply (proj2 (proj2 (H JUndefined 0)) JUndefined). reflexivity.
Defined.

(* ================================================================== *)
(** ** Identifiers *)

Section Identifiers.

Lemma to_base36_aux_length (fuel : nat) (n : N) (acc : string) :
  String.length acc <= String.length (to_base36_aux fuel n acc).
Proof.
  revert n acc.
  induction fuel as [|fuel IH]; intros n acc; simpl.
  - lia.
  - destruct (n / 36 =? 0)%N.
    + simpl. lia.
    + etransitivity; [| apply IH]. simpl. lia.
Qed.

Lemma toString36_length (z : Z) : 1 <= String.length (toString36 z).
Proof.
  unfold toString36.
  destruct (z <? 0)%Z; simpl.
  - lia.
  - destruct (N.div (Z.abs_N z) 36 =? 0)%N.
    + simpl. lia.
    + etransitivity; [| apply to_base36_aux_length]. simpl. lia.
Qed.

Lemma size_nat_bound (n : N) : (n < 2 ^ N.of_nat (N.size_nat n))%N.
Proof.
  destruct n as [|p]; [reflexivity |].
  simpl. induction p as [p IH | p IH |].
  - cbn [Pos.size_nat]. rewrite Nat2N.inj_succ, N.pow_succ_r'. lia.
  - cbn [Pos.size_nat]. rewrite Nat2N.inj_succ, N.pow_succ_r'. lia.
  - reflexivity.
Qed.

(** The conversion to base 36 never runs out of fuel: more fuel than the
    number of bits changes nothing. *)
Lemma to_base36_aux_fuel (fuel : nat) :
  forall (n : N) (acc : string) (extra : nat),
    (n < 2 ^ N.of_nat fuel)%N ->
    to_base36_aux (S fuel + extra) n acc = to_base36_aux (S fuel) n acc.
Proof.
  induction fuel as [|fuel IH]; intros n acc extra Hn.
  - assert (n = 0%N) by (simpl in Hn; lia). subst n.
    destruct extra; reflexivity.
  - cbn [to_base36_aux Nat.add].
    destruct (N.eqb_spec (n / 36) 0) as [_|Hne]; [reflexivity |].
    apply (IH (n / 36)%N).
    rewrite Nat2N.inj_succ, N.pow_succ_r' in Hn.
    apply N.Div0.div_lt_upper_bound. lia.
Qed.

Lemma toString36_fuel_enough (z : Z) (extra : nat) :
  to_base36_aux (S (N.size_nat (Z.abs_N z)) + extra) (Z.abs_N z) EmptyString
  = to_base36_aux (S (N.size_nat (Z.abs_N z))) (Z.abs_N z) EmptyString.
Proof. apply to_base36_aux_fuel, size_nat_bound. Qed.

Example toString36_examples :
  toString36 0 = "0" /\ toString36 35 = "z" /\ toString36 36 = "10"
  /\ toString36 (-71) = "-1z" /\ toString36 1764547200000 = "mimdudc0".
Proof. repeat split. Qed.

Lemma toUpperCase_length (s : string) :
  String.length (toUpperCase s) = String.length s.
Proof. induction s as [|c s IH]; simpl; congruence. Qed.

Lemma append_length (s t : string) :
  String.length (s ++ t) = String.length s + String.length t.
Proof. induction s as [|c s IH]; simpl; congruence. Qed.

Variable h : Host.

(** Without [crypto.randomUUID] the id is the clock in base 36 followed by
    up to eight base-36 digits of [Math.random()], in capitals; the clock
    part alone makes it non-empty. *)
Lemma uid_fallback_nonempty (n : nat) :
  toUpperCase (toString36 (Date_now h n) ++ slice 2 10 (Math_random_toString36 h n))
  <> "".
Proof.
  intros Hempty.
  apply (f_equal String.length) in Hempty.
  rewrite toUpperCase_length, append_length in Hempty.
  pose proof (toString36_length (Date_now h n)).
  simpl in Hempty. lia.
Qed.

(** C6. A built record keeps the id of the payload record when there is
    one and gets a generated one otherwise; the generator returns
    [crypto.randomUUID()] when the platform has it and the clock plus random
    suffix otherwise, and what it returns is never the empty string (a
    platform UUID being 36 characters long). *)
Theorem built_record_id_kept_or_generated :
  (forall randomUUID n,
      crypto_randomUUID h = Some randomUUID -> String.length (randomUUID n) = 36) ->
  (forall toolOutput l n,
      opt_chain toolOutput "meals" = JArr l ->
      Forall (fun m => readable m = true) l ->
      exists l' n',
        Dinnercaster.buildInitialData h toolOutput n = Ok (view_model l', n')
        /\ Forall2 (id_kept_or_drawn h n n') l l')
  /\ (forall n,
        Dinnercaster.uid h n
        = Ok (JStr match crypto_randomUUID h with
                   | Some randomUUID => randomUUID n
                   | None =>
                       toUpperCase (toString36 (Date_now h n)
                                    ++ slice 2 10 (Math_random_toString36 h n))
                   end, S n))
  /\ (forall n, exists s, Dinnercaster.uid h n = Ok (JStr s, S n) /\ s <> "").
Proof.
  intros Huuid.
  split; [| split].
  - intros toolOutput l n Hl Hall.
    destruct (mapM_addMealDefaults h l Hall n) as (l' & n' & Hrun & _ & Hrel).
    exists l', n'. split.
    + rewrite (buildInitialData_array h _ _ _ Hl), Hrun. reflexivity.
    + eapply Forall2_impl; [| exact Hrel].
      intros m r (k & Hk & Hk' & ->).
      unfold id_kept_or_drawn.
      destruct (nullish (id_of m)) eqn:Hid.
      * right. split; [reflexivity |].
        exists k. split; [lia |]. apply uid_draw.
      * left. split; reflexivity.
  - intros n. unfold Dinnercaster.uid.
    destruct (crypto_randomUUID h); reflexivity.
  - intros n. unfold Dinnercaster.uid.
    destruct (crypto_randomUUID h) as [randomUUID|] eqn:Hc.
    + eexists; split; [reflexivity |].
      intros Hempty. specialize (Huuid randomUUID n eq_refl).
      rewrite Hempty in Huuid. discriminate Huuid.
    + eexists; split; [reflexivity |]. apply uid_fallback_nonempty.
Qed.

End Identifiers.

Lemma built_record_id_kept_or_generated_witness :
  (exists l' n',
      Dinnercaster.buildInitialData uuid_host
        (JObj [("meals", JArr [tacos; JObj [("meal", JStr "Soup")]])]) 0
      = Ok (view_model l', n')
      /\ Forall2 (id_kept_or_drawn uuid_host 0 n')
                 [tacos; JObj [("meal", JStr "Soup")]] l')
  /\ (exists s, Dinnercaster.uid uuid_host 0 = Ok (JStr s, 1) /\ s <> "").
Proof.
  assert (Huuid : forall randomUUID n,
             crypto_randomUUID uuid_host = Some randomUUID ->
             String.length (randomUUID n) = 36).
  { intros randomUUID n Heq. injection Heq as <-. reflexivity. }
  destruct (built_record_id_kept_or_generated uuid_host Huuid) as (Hbuild & _ & Hne).
  split.
  - apply Hbuild; [reflexivity | repeat constructor].
  - apply Hne.
Defined.

(** The ids a host without [crypto] hands out. *)
Example uid_fallback_example :
  Dinnercaster.uid clock_host 0 = Ok (JStr "MIMDUDC04FZYO82M", 1).
Proof. reflexivity. Qed.

(* ================================================================== *)
(** ** Arrays and object spread *)

Section Arrays.

Context {A B : Type}.

Lemma res_mapM_pure (f : A -> Res B) (g : A -> B) (l : list A) :
  Forall (fun x => f x = Ok (g x)) l -> res_mapM f l = Ok (map g l).
Proof.
  induction 1 as [|x t Hx _ IH]; simpl.
  - reflexivity.
  - rewrite Hx. simpl. rewrite IH. reflexivity.
Qed.

Lemma res_filterM_pure (p : A -> Res bool) (q : A -> bool) (l : list A) :
  Forall (fun x => p x = Ok (q x)) l -> res_filterM p l = Ok (filter q l).
Proof.
  induction 1 as [|x t Hx _ IH]; simpl.
  - reflexivity.
  - rewrite Hx. simpl. rewrite IH. simpl. reflexivity.
Qed.

End Arrays.

Section Spread.

Lemma lookup_absent (k : string) (ps : list (string * JsVal)) :
  ~ In k (keys ps) -> lookup k ps = None.
Proof.
  induction ps as [|[k' v] rest IH]; simpl; intros Hnot.
  - reflexivity.
  - rewrite IH by tauto.
    destruct (String.eqb_spec k k') as [->|Hne]; [tauto | reflexivity].
Qed.

Lemma in_keys_set_prop (k x : string) (v : JsVal) (ps : list (string * JsVal)) :
  In x (keys (set_prop k v ps)) -> x = k \/ In x (keys ps).
Proof.
  induction ps as [|[k' w] rest IH]; simpl.
  - intros [<-|[]]. left; reflexivity.
  - destruct (String.eqb_spec k k') as [->|Hne]; simpl.
    + tauto.
    + intros [<-|Hin]; [tauto |]. destruct (IH Hin); tauto.
Qed.

Lemma NoDup_keys_set_prop (k : string) (v : JsVal) (ps : list (string * JsVal)) :
  NoDup (keys ps) -> NoDup (keys (set_prop k v ps)).
Proof.
  induction ps as [|[k' w] rest IH]; simpl; intros Hnd.
  - repeat constructor. simpl. tauto.
  - inversion Hnd as [|? ? Hnotin Hrest]; subst.
    destruct (String.eqb_spec k k') as [->|Hne]; simpl.
    + constructor; assumption.
    + constructor; [| apply IH; assumption].
      intros Hin. destruct (in_keys_set_prop _ _ _ _ Hin) as [->|Hin']; tauto.
Qed.

Lemma lookup_set_prop (k k' : string) (v : JsVal) (ps : list (string * JsVal)) :
  NoDup (keys ps) ->
  lookup k (set_prop k' v ps) = if (k =? k')%string then Some v else lookup k ps.
Proof.
  induction ps as [|[k1 w] rest IH]; simpl; intros Hnd.
  - destruct (k =? k')%string; reflexivity.
  - inversion Hnd as [|? ? Hnotin Hrest]; subst.
    destruct (String.eqb_spec k' k1) as [->|Hne]; simpl.
    + destruct (String.eqb_spec k k1) as [->|Hk].
      * rewrite (lookup_absent _ _ Hnotin). reflexivity.
      * reflexivity.
    + rewrite (IH Hrest).
      destruct (String.eqb_spec k k') as [->|Hk].
      * reflexivity.
      * reflexivity.
Qed.

Lemma assign_spec (src target : list (string * JsVal)) :
  NoDup (keys target) ->
  NoDup (keys (assign target src))
  /\ forall k, lookup k (assign target src)
               = match lookup k src with
                 | Some v => Some v
                 | None => lookup k target
                 end.
Proof.
  revert target.
  induction src as [|[k1 v1] rest IH]; intros target Hnd.
  - split; [assumption | reflexivity].
  - change (assign target ((k1, v1) :: rest))
      with (assign (set_prop k1 v1 target) rest).
    destruct (IH (set_prop k1 v1 target) (NoDup_keys_set_prop k1 v1 target Hnd))
      as [Hnd' Hlook].
    split; [exact Hnd' |].
    intros k. rewrite Hlook. simpl.
    destruct (lookup k rest); [reflexivity |].
    rewrite (lookup_set_prop k k1 v1 target Hnd).
    destruct (k =? k1)%string; reflexivity.
Qed.

Lemma lookup_id_indexed (l : list JsVal) (i : nat) : lookup "id" (indexed i l) = None.
Proof.
  revert i.
  induction l as [|x rest IH]; intros i; simpl.
  - reflexivity.
  - rewrite IH.
    unfold string_of_nat, NilZero.string_of_uint.
    destruct (Nat.to_uint i); reflexivity.
Qed.

Lemma lookup_id_own_props (m : JsVal) :
  prop_or_undefined "id" (own_props m) = id_of m.
Proof.
  unfold prop_or_undefined, id_of.
  destruct m; simpl; try reflexivity; rewrite lookup_id_indexed; reflexivity.
Qed.

Lemma edit_leaves_id_alone (val : JsVal) :
  edits_meal_or_notes val = true -> lookup "id" (own_props val) = None.
Proof.
  unfold edits_meal_or_notes.
  induction (own_props val) as [|[k v] rest IH]; intros Hall.
  - reflexivity.
  - cbn [forallb fst] in Hall.
    apply andb_true_iff in Hall as [Hk Hrest].
    cbn [lookup]. rewrite (IH Hrest).
    destruct (String.eqb_spec "id" k) as [<-|_]; [discriminate Hk | reflexivity].
Qed.

(** [{ ...m, ...val }] has the id of [m] when [val] carries none. *)
Lemma spread2_keeps_id (m val : JsVal) :
  edits_meal_or_notes val = true -> id_of (spread2 m val) = id_of m.
Proof.
  intros Hval.
  unfold spread2, id_of at 1, opt_chain, prop_or_undefined.
  destruct (assign_spec (own_props m) [] (NoDup_nil _)) as [Hnd Hm].
  destruct (assign_spec (own_props val) _ Hnd) as [_ Hv].
  rewrite Hv, (edit_leaves_id_alone val Hval), Hm. simpl.
  pose proof (lookup_id_own_props m) as Hid.
  unfold prop_or_undefined in Hid.
  destruct (lookup "id" (own_props m)); exact Hid.
Qed.

Lemma edit_record_keeps_id (id val m : JsVal) :
  edits_meal_or_notes val = true -> id_of (edit_record id val m) = id_of m.
Proof.
  intros Hval. unfold edit_record.
  destruct (strict_eq (id_of m) id); [apply spread2_keeps_id; assumption | reflexivity].
Qed.

Lemma edit_record_readable (id val m : JsVal) :
  readable m = true -> readable (edit_record id val m) = true.
Proof.
  intros Hm. unfold edit_record.
  destruct (strict_eq (id_of m) id); [reflexivity | assumption].
Qed.

End Spread.

(* ================================================================== *)
(** ** Editing and deleting a record *)

Section EditDelete.

Variables (id : JsVal) (l : list JsVal).
Hypothesis records_readable : Forall (fun m => readable m = true) l.

Lemma updateMealById_on_array (val prev : JsVal) :
  get_prop prev "meals" = Ok (JArr l) ->
  Dinnercaster.updateMealById id val prev
  = Ok (view_model (map (edit_record id val) l)).
Proof.
  intros Hprev. unfold Dinnercaster.updateMealById.
  rewrite Hprev. simpl.
  rewrite (res_mapM_pure _ (edit_record id val)).
  - reflexivity.
  - eapply Forall_impl; [| exact records_readable].
    intros m Hm. rewrite (get_prop_readable m "id" Hm). reflexivity.
Qed.

Lemma deleteMealById_on_array (prev : JsVal) :
  get_prop prev "meals" = Ok (JArr l) ->
  Dinnercaster.deleteMealById id prev
  = Ok (view_model (filter (other_id id) l)).
Proof.
  intros Hprev. unfold Dinnercaster.deleteMealById.
  rewrite Hprev. simpl.
  rewrite (res_filterM_pure _ (other_id id)).
  - reflexivity.
  - eapply Forall_impl; [| exact records_readable].
    intros m Hm. rewrite (get_prop_readable m "id" Hm). reflexivity.
Qed.

Lemma edit_record_other (val m : JsVal) :
  strict_eq (id_of m) id = false -> edit_record id val m = m.
Proof. unfold edit_record. intros ->. reflexivity. Qed.


Lemma filter_other_id_no_match (t : list JsVal) :
  (forall m, In m t -> strict_eq (id_of m) id = false) ->
  filter (other_id id) t = t.
Proof.
  induction t as [|m rest IH]; simpl; intros Hnone.
  - reflexivity.
  - unfold other_id at 1.
    rewrite (Hnone m) by (left; reflexivity). simpl.
    rewrite IH by (intros m' Hm'; apply Hnone; right; assumption).
    reflexivity.
Qed.



End EditDelete.

(** The name-only variant has the same [updateMealById]. *)
Lemma NameOnly_updateMealById_same (id val prev : JsVal) :
  NameOnly.updateMealById id val prev = Dinnercaster.updateMealById id val prev.
Proof. reflexivity. Qed.



Example updateMealById_example :
  Dinnercaster.updateMealById (JStr "a1") (JObj [("meal", JStr "Tac")]) two_meals
  = Ok (view_model
          [JObj [("id", JStr "a1"); ("date", JStr "2025-12-01");
                 ("meal", JStr "Tac"); ("notes", JStr "")];
           ramen]).
Proof. reflexivity. Qed.

Example deleteMealById_example :
  Dinnercaster.deleteMealById (JStr "a1") two_meals = Ok (view_model [ramen]).
Proof. reflexivity. Qed.

(* ================================================================== *)
(** ** Reconciling an arriving server payload *)

Section Reconcile.

Variable h : Host.

(** The effect runs for a [toolOutput] that is another object than the one
    it last ran for. *)
Lemma deliver_other_object (a : Dinnercaster.App) (d : Delivery) :
  (forall d0, Dinnercaster.seen a = Some d0 -> addr d0 <> addr d) ->
  Dinnercaster.deliver h a d
  = Dinnercaster.setData
      {| Dinnercaster.data := Dinnercaster.data a;
         Dinnercaster.draws := Dinnercaster.draws a;
         Dinnercaster.seen := Some d |}
      (Dinnercaster.syncToolOutput h (payload d)
         (Dinnercaster.data a) (Dinnercaster.draws a)).
Proof.
  intros Hother. unfold Dinnercaster.deliver.
  destruct (Dinnercaster.seen a) as [d0|]; [| reflexivity].
  destruct (Nat.eqb_spec (addr d0) (addr d)) as [Heq|_]; [| reflexivity].
  exfalso. exact (Hother d0 eq_refl Heq).
Qed.

(** It does not run again for the object it last ran for. *)
Lemma deliver_same_object (a : Dinnercaster.App) (d d0 : Delivery) :
  Dinnercaster.seen a = Some d0 -> addr d0 = addr d ->
  Dinnercaster.deliver h a d = Ok a.
Proof.
  intros Hseen Heq. unfold Dinnercaster.deliver.
  rewrite Hseen, Heq, Nat.eqb_refl. reflexivity.
Qed.

(** Whatever the widget holds, the effect that runs for another object with
    its meals field set puts the built view model in its place. *)
Lemma deliver_replaces_when_built
    (a : Dinnercaster.App) (d : Delivery) (built : JsVal) (n' : nat) :
  (forall d0, Dinnercaster.seen a = Some d0 -> addr d0 <> addr d) ->
  truthy (opt_chain (payload d) "meals") = true ->
  Dinnercaster.buildInitialData h (payload d) (Dinnercaster.draws a) = Ok (built, n') ->
  Dinnercaster.deliver h a d
  = Ok {| Dinnercaster.data := built;
          Dinnercaster.draws := n';
          Dinnercaster.seen := Some d |}.
Proof.
  intros Hother Hmeals Hbuilt.
  rewrite deliver_other_object by assumption.
  unfold Dinnercaster.syncToolOutput. rewrite Hmeals, Hbuilt. reflexivity.
Qed.

(** The effect that runs for another object without truthy meals leaves the
    view model alone. *)
Lemma deliver_without_meals (a : Dinnercaster.App) (d : Delivery) :
  (forall d0, Dinnercaster.seen a = Some d0 -> addr d0 <> addr d) ->
  truthy (opt_chain (payload d) "meals") = false ->
  Dinnercaster.deliver h a d
  = Ok {| Dinnercaster.data := Dinnercaster.data a;
          Dinnercaster.draws := Dinnercaster.draws a;
          Dinnercaster.seen := Some d |}.
Proof.
  intros Hother Hmeals.
  rewrite deliver_other_object by assumption.
  unfold Dinnercaster.syncToolOutput. rewrite Hmeals. reflexivity.
Qed.

(** C2, as amended. A newly arriving payload that differs from the one last
    applied (one object has one content: a payload that differs is another
    object) and whose meals field is an array of records replaces the whole
    cached view model, whatever it holds: the new view model has one record
    per record of the payload, in their order, each with the four fields
    [addMealDefaults] makes of the payload record, the id of the payload
    record or else one drawn from [uid()].  A payload whose meals field is
    falsy is not applied: the view model stays as it is. *)
Theorem new_payload_replaces_view_model (a : Dinnercaster.App) (d : Delivery) :
  (forall d0, Dinnercaster.seen a = Some d0 ->
              addr d0 = addr d -> payload d0 = payload d) ->
  (forall d0, Dinnercaster.seen a = Some d0 -> payload d0 <> payload d) ->
  (forall l,
      opt_chain (payload d) "meals" = JArr l ->
      Forall (fun m => readable m = true) l ->
      exists l' n',
        Dinnercaster.step h a (Deliver d)
        = Ok {| Dinnercaster.data := JObj [("meals", JArr l')];
                Dinnercaster.draws := n';
                Dinnercaster.seen := Some d |}
        /\ Forall2 (built_from h (Dinnercaster.draws a) n') l l')
  /\ (truthy (opt_chain (payload d) "meals") = false ->
      Dinnercaster.step h a (Deliver d)
      = Ok {| Dinnercaster.data := Dinnercaster.data a;
              Dinnercaster.draws := Dinnercaster.draws a;
              Dinnercaster.seen := Some d |}).
Proof.
  intros Hcoherent Hdiffers.
  assert (Hother : forall d0, Dinnercaster.seen a = Some d0 -> addr d0 <> addr d).
  { intros d0 Hseen Haddr.
    exact (Hdiffers d0 Hseen (Hcoherent d0 Hseen Haddr)). }
  split.
  - intros l Hmeals Hread.
    destruct (buildInitialData_from_array h (payload d) l (Dinnercaster.draws a)
                Hmeals Hread) as (l' & n' & Hbuilt & _ & Hrel).
    exists l', n'. split; [| exact Hrel].
    simpl. apply deliver_replaces_when_built.
    + exact Hother.
    + rewrite Hmeals. reflexivity.
    + exact Hbuilt.
  - intros Hfalsy. simpl. apply deliver_without_meals; assumption.
Qed.

(** The name-only variant syncs in the same way. *)
Lemma NameOnly_sync_replaces (toolOutput data built : JsVal) (n n' : nat) :
  truthy (opt_chain toolOutput "meals") = true ->
  NameOnly.buildInitialData h toolOutput JUndefined n = Ok (built, n') ->
  NameOnly.syncToolOutput h toolOutput data n = Ok (built, n').
Proof.
  intros Hmeals Hbuilt. unfold NameOnly.syncToolOutput.
  rewrite Hmeals. exact Hbuilt.
Qed.

(** The read-only variant compares what arrives with what it last synced,
    and leaves its state alone when the two serialise alike. *)
Lemma ReadOnly_skips_synced_payload (a : ReadOnly.App) (toolOutput : JsVal) :
  ReadOnly.lastSyncedToolOutputRef a = opt_chain toolOutput "meals" ->
  ReadOnly.syncToolOutput h toolOutput a = a.
Proof.
  intros Hlast. unfold ReadOnly.syncToolOutput.
  rewrite Hlast, String.eqb_refl, andb_false_r. reflexivity.
Qed.

Lemma ReadOnly_applies_then_skips (a : ReadOnly.App) (d1 d2 : Delivery) :
  payload d2 = payload d1 ->
  truthy (opt_chain (payload d1) "meals") = true ->
  (JSON_stringify h (opt_chain (payload d1) "meals")
   =? JSON_stringify h (ReadOnly.lastSyncedToolOutputRef a))%string = false ->
  ReadOnly.seen a = None ->
  ReadOnly.data (ReadOnly.deliver h (ReadOnly.deliver h a d1) d2)
  = ReadOnly.data (ReadOnly.deliver h a d1).
Proof.
  intros Hsame Hmeals Hnew Hseen.
  assert (Hfirst : ReadOnly.deliver h a d1
                   = {| ReadOnly.data := JObj [("meals", opt_chain (payload d1) "meals")];
                        ReadOnly.lastSyncedToolOutputRef := opt_chain (payload d1) "meals";
                        ReadOnly.seen := Some d1 |}).
  { unfold ReadOnly.deliver. rewrite Hseen.
    unfold ReadOnly.syncToolOutput. simpl.
    rewrite Hmeals, Hnew. reflexivity. }
  rewrite Hfirst.
  unfold ReadOnly.deliver. simpl.
  destruct (addr d1 =? addr d2)%nat; [reflexivity |].
  rewrite ReadOnly_skips_synced_payload; [reflexivity |].
  simpl. rewrite Hsame. reflexivity.
Qed.

End Reconcile.

Lemma new_payload_replaces_view_model_witness :
  (exists l' n',
      Dinnercaster.step clock_host edited_app
        (Deliver {| addr := 2; payload := view_model [ramen] |})
      = Ok {| Dinnercaster.data := JObj [("meals", JArr l')];
              Dinnercaster.draws := n';
              Dinnercaster.seen := Some {| addr := 2; payload := view_model [ramen] |} |}
      /\ Forall2 (built_from clock_host (Dinnercaster.draws edited_app) n') [ramen] l')
  /\ Dinnercaster.step clock_host edited_app (Deliver {| addr := 5; payload := JObj [] |})
     = Ok {| Dinnercaster.data := Dinnercaster.data edited_app;
             Dinnercaster.draws := Dinnercaster.draws edited_app;
             Dinnercaster.seen := Some {| addr := 5; payload := JObj [] |} |}.
Proof.
  split.
  - apply (proj1 (new_payload_replaces_view_model clock_host edited_app
                    {| addr := 2; payload := view_model [ramen] |}
                    ltac:(intros d0 Hseen Haddr; injection Hseen as <-; discriminate Haddr)
                    ltac:(intros d0 Hseen Hsame; injection Hseen as <-; discriminate Hsame))
             [ramen]).
    + reflexivity.
    + repeat constructor.
  - apply (proj2 (new_payload_replaces_view_model clock_host edited_app
                    {| addr := 5; payload := JObj [] |}
                    ltac:(intros d0 Hseen Haddr; injection Hseen as <-; discriminate Haddr)
                    ltac:(intros d0 Hseen Hsame; injection Hseen as <-; discriminate Hsame))).
    reflexivity.
Defined.

(** C2 fails on a payload that contains a meals field holding [null]: the
    payload is new and differs from the one last applied, the view model
    built from it is the empty collection, and the widget keeps the view model
    it had. *)
Lemma null_meals_payload_is_not_applied :
  Dinnercaster.seen edited_app = Some {| addr := 1; payload := two_meals |}
  /\ null_meals <> two_meals
  /\ Dinnercaster.buildInitialData clock_host null_meals (Dinnercaster.draws edited_app)
     = Ok (view_model [], 0)
  /\ Dinnercaster.step clock_host edited_app (Deliver {| addr := 2; payload := null_meals |})
     = Ok {| Dinnercaster.data := Dinnercaster.data edited_app;
             Dinnercaster.draws := 0;
             Dinnercaster.seen := Some {| addr := 2; payload := null_meals |} |}
  /\ Dinnercaster.data edited_app <> view_model [].
Proof.
  split; [reflexivity |].
  split; [discriminate |].
  split; [reflexivity |].
  split; [reflexivity |].
  discriminate.
Qed.

(** The retyped meal name is gone after the new payload. *)
Example new_payload_drops_edit :
  Dinnercaster.step clock_host edited_app
    (Deliver {| addr := 2; payload := view_model [ramen] |})
  = Ok {| Dinnercaster.data := view_model [ramen];
          Dinnercaster.draws := 0;
          Dinnercaster.seen := Some {| addr := 2; payload := view_model [ramen] |} |}.
Proof. reflexivity. Qed.

(** C1, at a concrete input. The payload [two_meals] is applied, the user
    retypes the first meal name, and the host delivers [two_meals] again in a
    new object: the effect runs, rebuilds the view model from the payload and
    the retyped name is gone.  No comparison with the payload last applied
    takes place. *)
Theorem redelivery_overwrites_local_edit :
  exists a1 a2 a3,
    Dinnercaster.mount clock_host JUndefined {| addr := 1; payload := two_meals |} 0
    = Ok a1
    /\ Dinnercaster.step clock_host a1
         (UpdateMeal (JStr "a1") (JObj [("meal", JStr "Tac")])) = Ok a2
    /\ Dinnercaster.step clock_host a2
         (Deliver {| addr := 2; payload := two_meals |}) = Ok a3
    /\ a2 = edited_app
    /\ Dinnercaster.data a3 = Dinnercaster.data a1
    /\ Dinnercaster.data a3 <> Dinnercaster.data a2.
Proof.
  do 3 eexists.
  split; [reflexivity |].
  split; [reflexivity |].
  split; [reflexivity |].
  split; [reflexivity |].
  split; [reflexivity |].
  simpl. discriminate.
Qed.

(** Mounting again on a cached state that holds an edit, with the payload
    that was already applied, discards the edit as well. *)
Example remount_overwrites_cached_edit :
  exists a,
    Dinnercaster.mount clock_host (Dinnercaster.data edited_app)
      {| addr := 3; payload := two_meals |} 0 = Ok a
    /\ Dinnercaster.data a = two_meals.
Proof. eexists. split; reflexivity. Qed.

(** The read-only variant, on the same two deliveries, skips the second. *)
Example ReadOnly_redelivery_skipped :
  let a1 := ReadOnly.mount clock_host JUndefined {| addr := 1; payload := two_meals |} in
  ReadOnly.data (ReadOnly.deliver clock_host a1 {| addr := 2; payload := two_meals |})
  = ReadOnly.data a1.
Proof. reflexivity. Qed.

(* ================================================================== *)
(** ** The whole initial load: first render, then the effect *)

Section WholeInitialLoad.

Variable h : Host.
Variables (widgetState : JsVal) (d : Delivery) (n : nat).



End WholeInitialLoad.



(* ================================================================== *)
(** ** Rendering the date of a record *)

Section FormatDate.

Variable h : Host.
Variable tick : nat.

Lemma formatDate_absent (dateStr : JsVal) :
  truthy dateStr = false -> Dinnercaster.formatDate h tick dateStr = Ok "".
Proof. unfold Dinnercaster.formatDate. intros ->. reflexivity. Qed.

Lemma formatDate_wrong_shape (s : string) :
  List.length (split_dash s) <> 3 ->
  Dinnercaster.formatDate h tick (JStr s) = Ok "".
Proof.
  intros Hparts. unfold Dinnercaster.formatDate.
  destruct (truthy (JStr s)); [| reflexivity]. simpl.
  destruct (Nat.eqb_spec (List.length (split_dash s)) 3) as [Heq|_];
    [contradiction | reflexivity].
Qed.

Lemma formatDate_three_parts (s : string) :
  s <> "" ->
  List.length (split_dash s) = 3 ->
  exists dt opts,
    Dinnercaster.formatDate h tick (JStr s) = Ok (toLocaleDateString h dt opts).
Proof.
  intros Hs Hparts. unfold Dinnercaster.formatDate.
  assert (Ht : truthy (JStr s) = true).
  { simpl. destruct (String.eqb_spec s "") as [->|_]; [congruence | reflexivity]. }
  rewrite Ht, Hparts. simpl.
  do 2 eexists. reflexivity.
Qed.

(** The platform renders every date, the invalid one included, as some
    text. *)
Hypothesis label_nonempty : forall dt opts, toLocaleDateString h dt opts <> "".

(** C10, as amended. On a date that is a string or absent (null or undefined)
    [formatDate] never throws: it returns the empty string exactly when the
    date is absent, empty or does not split at its dashes into three parts,
    and otherwise the platform's rendering of the date made of the three
    parts, which is not empty on a platform that renders every date as some
    text.  On any other input it returns the empty string when the input is
    falsy, and throws a TypeError when it is not. *)
Theorem formatDate_total (dateStr : JsVal) :
  (date_or_absent dateStr = true ->
   exists label,
     Dinnercaster.formatDate h tick dateStr = Ok label
     /\ (label = ""
         <-> (nullish dateStr = true
              \/ dateStr = JStr ""
              \/ exists s, dateStr = JStr s /\ List.length (split_dash s) <> 3))
     /\ (forall s p0 p1 p2,
           dateStr = JStr s -> s <> "" -> split_dash s = [p0; p1; p2] ->
           exists opts,
             label = toLocaleDateString h
                       (Date_of_ymd h (parseInt10 p0)
                                    (num_or_1 (parseInt10 p1) - 1)%Z
                                    (num_or_1 (parseInt10 p2)))
                       opts))
  /\ (date_or_absent dateStr = false ->
      Dinnercaster.formatDate h tick dateStr
      = if truthy dateStr then TypeError "dateStr.split is not a function"
        else Ok "").
Proof.
  split.
  - intros Hdate.
    destruct dateStr as [| | b | z | s | elems | props]; try discriminate Hdate.
    + exists "". split; [reflexivity |].
      split; [split; [left; reflexivity | reflexivity] |].
      intros s p0 p1 p2 Hs. discriminate Hs.
    + exists "". split; [reflexivity |].
      split; [split; [left; reflexivity | reflexivity] |].
      intros s p0 p1 p2 Hs. discriminate Hs.
    + destruct (string_dec s "") as [->|Hs].
      * exists "". split; [reflexivity |].
        split; [split; [right; left; reflexivity | reflexivity] |].
        intros s p0 p1 p2 Hs Hne. injection Hs as <-. congruence.
      * destruct (Nat.eq_dec (List.length (split_dash s)) 3) as [Hparts|Hparts].
        -- destruct (formatDate_three_parts s Hs Hparts) as (dt & opts & Hlabel).
           exists (toLocaleDateString h dt opts). split; [exact Hlabel |].
           split.
           ++ split.
              ** intros Hempty. exfalso. exact (label_nonempty dt opts Hempty).
              ** intros [Hnull | [Hempty | (s' & Hs' & Hne)]].
                 --- discriminate Hnull.
                 --- congruence.
                 --- injection Hs' as <-. contradiction.
           ++ intros s' p0 p1 p2 Hs' _ Hsplit. injection Hs' as <-.
              assert (Ht : truthy (JStr s) = true).
              { simpl. destruct (String.eqb_spec s "") as [->|_];
                  [congruence | reflexivity]. }
              unfold Dinnercaster.formatDate in Hlabel.
              rewrite Ht, Hsplit in Hlabel.
              cbn [negb List.length Nat.eqb nth] in Hlabel.
              injection Hlabel as Hlabel. rewrite <- Hlabel.
              eexists. reflexivity.
        -- exists "". split; [apply formatDate_wrong_shape; assumption |].
           split.
           ++ split; [| reflexivity].
              intros _. right. right. exists s. split; [reflexivity | assumption].
           ++ intros s' p0 p1 p2 Hs' _ Hsplit. injection Hs' as <-.
              rewrite Hsplit in Hparts. contradiction Hparts. reflexivity.
  - intros Hdate. unfold Dinnercaster.formatDate.
    destruct dateStr as [| | b | z | s | elems | props]; try discriminate Hdate.
    + destruct b; reflexivity.
    + destruct (truthy (JNum z)); reflexivity.
    + reflexivity.
    + reflexivity.
Qed.

(** The date of a record built from a payload is a string or [null], so
    rendering it never throws; without a date string nothing is shown. *)
Lemma built_record_date_renders (id m : JsVal) :
  date_or_absent (opt_chain (record_with_id id m) "date") = true
  /\ ((typeof (opt_chain m "date") =? "string")%string = false ->
      Dinnercaster.formatDate h tick (opt_chain (record_with_id id m) "date") = Ok "").
Proof.
  assert (Hdate : opt_chain (record_with_id id m) "date"
                  = if (typeof (opt_chain m "date") =? "string")%string
                    then opt_chain m "date" else JNull) by reflexivity.
  rewrite Hdate.
  destruct (opt_chain m "date"); split; try reflexivity;
    intros Hnot; try reflexivity; discriminate Hnot.
Qed.

End FormatDate.

Lemma formatDate_total_witness :
  (exists label,
     Dinnercaster.formatDate clock_host 0 (JStr "2025-12-01") = Ok label
     /\ (label = ""
         <-> (nullish (JStr "2025-12-01") = true
              \/ JStr "2025-12-01" = JStr ""
              \/ exists s, JStr "2025-12-01" = JStr s
                           /\ List.length (split_dash s) <> 3))
     /\ (forall s p0 p1 p2,
           JStr "2025-12-01" = JStr s -> s <> "" -> split_dash s = [p0; p1; p2] ->
           exists opts,
             label = toLocaleDateString clock_host
                       (Date_of_ymd clock_host (parseInt10 p0)
                                    (num_or_1 (parseInt10 p1) - 1)%Z
                                    (num_or_1 (parseInt10 p2)))
                       opts))
  /\ Dinnercaster.formatDate clock_host 0 (JBool false) = Ok "".
Proof.
  assert (Hplatform : forall dt opts, toLocaleDateString clock_host dt opts <> "").
  { intros [t|] opts H; discriminate H. }
  split.
  - apply (formatDate_total clock_host 0 Hplatform (JStr "2025-12-01")).
    reflexivity.
  - apply (formatDate_total clock_host 0 Hplatform (JBool false)).
    reflexivity.
Defined.

(** C10 fails on a date that is a number: the record [{date: 20251201}] put
    in the cached state makes [formatDate] throw, so no label is returned. *)
Lemma formatDate_throws_on_number :
  Dinnercaster.formatDate clock_host 0 (JNum 20251201)
  = TypeError "dateStr.split is not a function"
  /\ forall label,
       Dinnercaster.formatDate clock_host 0 (JNum 20251201) <> Ok label.
Proof.
  split; [reflexivity |].
  intros label H. discriminate H.
Qed.

Example formatDate_examples :
  Dinnercaster.formatDate clock_host 0 JNull = Ok ""
  /\ Dinnercaster.formatDate clock_host 0 (JStr "2025-12") = Ok ""
  /\ Dinnercaster.formatDate clock_host 0 (JStr "soon-ish-maybe") = Ok "Invalid Date"
  /\ Dinnercaster.formatDate clock_host 0 (JNum 20251201)
     = TypeError "dateStr.split is not a function".
Proof. repeat split. Qed.

(* ================================================================== *)
(** ** Uniqueness of ids *)

Section UniqueIds.

Variable h : Host.
Hypothesis fresh : uid_never_repeats h.

Lemma id_of_record_with_id (id m : JsVal) : id_of (record_with_id id m) = id.
Proof. reflexivity. Qed.

Lemma present_ids_cons (m : JsVal) (t : list JsVal) :
  present_ids (m :: t)
  = if nullish (id_of m) then present_ids t else id_of m :: present_ids t.
Proof.
  unfold present_ids. simpl.
  destruct (nullish (id_of m)); reflexivity.
Qed.

Lemma records_distinct_tail (m : JsVal) (t : list JsVal) :
  records_distinct h (m :: t) -> records_distinct h t.
Proof.
  intros (Hread & Hnd & Hgen).
  rewrite present_ids_cons in Hnd, Hgen.
  split; [inversion Hread; assumption |].
  destruct (nullish (id_of m)).
  - split; assumption.
  - split; [inversion Hnd; assumption |].
    intros v k Hv. apply Hgen. right. assumption.
Qed.

(** Building from records with distinct ids: every id of the result is an
    id the payload carried or one drawn during the build, and no two are
    the same. *)
Lemma build_distinct (l : list JsVal) :
  records_distinct h l ->
  forall n, exists l' n',
    mapM (Dinnercaster.addMealDefaults h) l n = Ok (l', n')
    /\ n <= n'
    /\ Forall (fun r => readable r = true) l'
    /\ NoDup (map id_of l')
    /\ (forall r, In r l' ->
          In (id_of r) (present_ids l)
          \/ exists k, n <= k < n' /\ id_of r = uid_at h k).
Proof.
  induction l as [|m t IH]; intros Hdist n.
  - exists [], n. repeat split; try constructor; auto.
  - pose proof (records_distinct_tail m t Hdist) as Htail.
    destruct Hdist as (Hread & Hnd & Hgen).
    inversion Hread as [|? ? Hm _]; subst.
    rewrite present_ids_cons in Hnd, Hgen.
    destruct (nullish (id_of m)) eqn:Hid.
    + destruct (IH Htail (S n)) as (t' & n' & Hrun & Hle & Hread' & Hnd' & Hsrc).
      exists (record_with_id (uid_at h n) m :: t'), n'.
      split; [| split; [lia | split; [constructor; [reflexivity | exact Hread'] | split]]].
      * simpl. unfold bind at 1.
        rewrite (addMealDefaults_readable h m n Hm), Hid.
        unfold bind at 1. rewrite Hrun. reflexivity.
      * cbn [map]. constructor; [| exact Hnd'].
        rewrite id_of_record_with_id. intros Hin.
        apply in_map_iff in Hin as (r & Hr & Hin).
        destruct (Hsrc r Hin) as [Hpayload | (k & Hk & Hdrawn)].
        -- apply (Hgen (id_of r) n Hpayload). congruence.
        -- assert (n = k) by (apply fresh; congruence). lia.
      * rewrite present_ids_cons, Hid.
        intros r [<- | Hin].
        -- right. exists n. split; [lia | reflexivity].
        -- destruct (Hsrc r Hin) as [Hpayload | (k & Hk & Hdrawn)].
           ++ left. assumption.
           ++ right. exists k. split; [lia | assumption].
    + inversion Hnd as [|? ? Hnotin Hnd_t]; subst.
      destruct (IH Htail n) as (t' & n' & Hrun & Hle & Hread' & Hnd' & Hsrc).
      exists (record_with_id (id_of m) m :: t'), n'.
      split; [| split; [lia | split; [constructor; [reflexivity | exact Hread'] | split]]].
      * simpl. unfold bind at 1.
        rewrite (addMealDefaults_readable h m n Hm), Hid.
        unfold bind at 1. rewrite Hrun. reflexivity.
      * cbn [map]. constructor; [| exact Hnd'].
        rewrite id_of_record_with_id. intros Hin.
        apply in_map_iff in Hin as (r & Hr & Hin).
        destruct (Hsrc r Hin) as [Hpayload | (k & Hk & Hdrawn)].
        -- apply Hnotin. rewrite <- Hr. assumption.
        -- apply (Hgen (id_of m) k); [left; reflexivity | congruence].
      * rewrite present_ids_cons, Hid.
        intros r [<- | Hin].
        -- left. left. reflexivity.
        -- destruct (Hsrc r Hin) as [Hpayload | (k & Hk & Hdrawn)].
           ++ left. right. assumption.
           ++ right. exists k. split; [lia | assumption].
Qed.

Lemma opt_chain_array_get_prop (v : JsVal) (k : string) (l : list JsVal) :
  opt_chain v k = JArr l -> get_prop v k = Ok (JArr l).
Proof. destruct v; simpl; intros H; try discriminate H. rewrite H. reflexivity. Qed.

Lemma get_prop_array_opt_chain (v : JsVal) (k : string) (l : list JsVal) :
  get_prop v k = Ok (JArr l) -> opt_chain v k = JArr l.
Proof. destruct v; simpl; intros H; try discriminate H. congruence. Qed.

(** Building from a payload with distinct ids establishes the invariant. *)
Lemma build_establishes (toolOutput : JsVal) (n : nat) (seen : option Delivery) :
  payload_distinct h toolOutput ->
  truthy (opt_chain toolOutput "meals") = true ->
  exists built n',
    Dinnercaster.buildInitialData h toolOutput n = Ok (built, n')
    /\ ids_distinct h {| Dinnercaster.data := built;
                         Dinnercaster.draws := n';
                         Dinnercaster.seen := seen |}.
Proof.
  intros [Hfalsy | (l & Hl & Hdist)] Hmeals; [congruence |].
  destruct (build_distinct l Hdist n) as (l' & n' & Hrun & Hle & Hread & Hnd & Hsrc).
  exists (view_model l'), n'. split.
  - rewrite (buildInitialData_array h _ _ _ Hl), Hrun. reflexivity.
  - exists l'. simpl. repeat split; trivial.
    intros r k Hin Hk Heq.
    destruct Hdist as (_ & _ & Hgen).
    destruct (Hsrc r Hin) as [Hpayload | (k0 & Hk0 & Hdrawn)].
    + exact (Hgen (id_of r) k Hpayload Heq).
    + assert (k = k0) by (apply fresh; congruence). lia.
Qed.

(** Dropping records keeps the remaining ids distinct. *)
Lemma kept_ids_distinct (keep : JsVal -> bool) (records : list JsVal) :
  NoDup (map id_of records) -> NoDup (map id_of (filter keep records)).
Proof.
  induction records as [|m rest IH]; simpl; intros Hnd.
  - constructor.
  - inversion Hnd as [|? ? Hnotin Hrest]; subst.
    destruct (keep m); simpl; [| apply IH; assumption].
    constructor; [| apply IH; assumption].
    intros Hin. apply Hnotin.
    apply in_map_iff in Hin as (m' & Hid & Hin).
    apply in_map_iff. exists m'. split; [assumption |].
    apply filter_In in Hin. tauto.
Qed.

Lemma map_id_of_edit (id val : JsVal) (l : list JsVal) :
  edits_meal_or_notes val = true ->
  map id_of (map (edit_record id val) l) = map id_of l.
Proof.
  intros Hval. rewrite map_map. apply map_ext.
  intros m. apply edit_record_keeps_id. assumption.
Qed.

Lemma addMeal_on_array (prev : JsVal) (l : list JsVal) (n : nat) :
  get_prop prev "meals" = Ok (JArr l) ->
  Dinnercaster.addMeal h prev n
  = Ok (view_model
          (JObj [("id", uid_at h n); ("meal", JStr ""); ("notes", JStr "");
                 ("date", JStr (Dinnercaster.dateStr_of h (Date_current h (S n))))]
           :: l), S n).
Proof.
  intros Hprev. unfold Dinnercaster.addMeal, bind.
  rewrite uid_draw, Hprev. reflexivity.
Qed.

(** Every event of the widget keeps the invariant, and none throws. *)
Lemma step_keeps_distinct (a : Dinnercaster.App) (e : Event) :
  ids_distinct h a ->
  event_distinct h e ->
  exists a', Dinnercaster.step h a e = Ok a' /\ ids_distinct h a'.
Proof.
  intros Hinv He.
  destruct e as [d | | id | id val]; simpl in He |- *.
  - (* a payload arrives *)
    assert (Hrun : exists a',
               Dinnercaster.setData
                 {| Dinnercaster.data := Dinnercaster.data a;
                    Dinnercaster.draws := Dinnercaster.draws a;
                    Dinnercaster.seen := Some d |}
                 (Dinnercaster.syncToolOutput h (payload d)
                    (Dinnercaster.data a) (Dinnercaster.draws a)) = Ok a'
               /\ ids_distinct h a').
    { unfold Dinnercaster.syncToolOutput.
      destruct (truthy (opt_chain (payload d) "meals")) eqn:Hmeals.
      - destruct (build_establishes (payload d) (Dinnercaster.draws a) (Some d)
                    He Hmeals) as (built & n' & Hbuilt & Hinv').
        rewrite Hbuilt. eexists. split; [reflexivity | exact Hinv'].
      - eexists. split; [reflexivity | exact Hinv]. }
    unfold Dinnercaster.deliver.
    destruct (Dinnercaster.seen a) as [d0|]; [| exact Hrun].
    destruct (addr d0 =? addr d)%nat; [| exact Hrun].
    exists a. split; [reflexivity | exact Hinv].
  - (* a blank record is added *)
    destruct Hinv as (l & Hl & Hread & Hnd & Hfuture).
    rewrite (addMeal_on_array _ l _ Hl).
    eexists. split; [reflexivity |].
    eexists. simpl. split; [reflexivity |].
    split; [constructor; [reflexivity | exact Hread] |].
    split.
    + constructor; [| exact Hnd].
      intros Hin. apply in_map_iff in Hin as (m & Hm & Hin).
      apply (Hfuture m (Dinnercaster.draws a) Hin (le_n _)).
      symmetry. exact Hm.
    + intros m k [<- | Hin] Hk.
      * intros Heq. change (uid_at h k = uid_at h (Dinnercaster.draws a)) in Heq.
        apply fresh in Heq. lia.
      * apply Hfuture; [assumption | lia].
  - (* a record is deleted *)
    destruct Hinv as (l & Hl & Hread & Hnd & Hfuture).
    unfold lift. rewrite (deleteMealById_on_array id l Hread _ Hl).
    eexists. split; [reflexivity |].
    exists (filter (other_id id) l). simpl. split; [reflexivity |].
    split; [apply Forall_forall; intros m Hm; apply filter_In in Hm;
            apply (proj1 (Forall_forall _ _) Hread); tauto |].
    split; [apply kept_ids_distinct; assumption |].
    intros m k Hm. apply filter_In in Hm. apply Hfuture. tauto.
  - (* a field is edited *)
    destruct Hinv as (l & Hl & Hread & Hnd & Hfuture).
    unfold lift. rewrite (updateMealById_on_array id l Hread val _ Hl).
    eexists. split; [reflexivity |].
    exists (map (edit_record id val) l). simpl. split; [reflexivity |].
    split; [apply Forall_forall; intros m' Hm';
            apply in_map_iff in Hm' as (m & <- & Hm);
            apply edit_record_readable;
            apply (proj1 (Forall_forall _ _) Hread); assumption |].
    split; [rewrite map_id_of_edit; assumption |].
    intros m' k Hm' Hk. apply in_map_iff in Hm' as (m & <- & Hm).
    rewrite edit_record_keeps_id by assumption.
    apply Hfuture; assumption.
Qed.

Lemma run_keeps_distinct (es : list Event) :
  Forall (event_distinct h) es ->
  forall a, ids_distinct h a ->
  exists a', Dinnercaster.run h a es = Ok a' /\ ids_distinct h a'.
Proof.
  induction 1 as [|e rest He _ IH]; intros a Hinv; simpl.
  - exists a. split; [reflexivity | assumption].
  - destruct (step_keeps_distinct a e Hinv He) as (a1 & Hstep & Hinv1).
    rewrite Hstep. simpl. apply IH. assumption.
Qed.

Lemma mount_establishes (widgetState : JsVal) (d : Delivery) (n : nat) :
  cache_distinct h n widgetState ->
  payload_distinct h (payload d) ->
  exists a, Dinnercaster.mount h widgetState d n = Ok a /\ ids_distinct h a.
Proof.
  intros Hcache Hpayload.
  assert (Hinit : exists v n',
             Dinnercaster.initialData h widgetState (payload d) n = Ok (v, n')
             /\ ids_distinct h {| Dinnercaster.data := v;
                                  Dinnercaster.draws := n';
                                  Dinnercaster.seen := None |}).
  { unfold Dinnercaster.initialData.
    destruct (truthy (opt_chain widgetState "meals")) eqn:Hw.
    - destruct Hcache as [Hfalsy | (l & Hl & Hread & Hnd & Hfuture)]; [congruence |].
      exists widgetState, n. split; [reflexivity |].
      exists l. simpl. split; [apply opt_chain_array_get_prop; assumption |].
      repeat split; assumption.
    - destruct (truthy (opt_chain (payload d) "meals")) eqn:Ht.
      + apply build_establishes; assumption.
      + exists (view_model []), n. split; [reflexivity |].
        exists []. simpl. repeat split; try constructor.
        intros m k []. }
  destruct Hinit as (v & n' & Hinit & Hinv).
  unfold Dinnercaster.mount. rewrite Hinit.
  apply (step_keeps_distinct _ (Deliver d) Hinv Hpayload).
Qed.

Lemma ids_distinct_record_ids (a : Dinnercaster.App) :
  ids_distinct h a -> NoDup (record_ids (Dinnercaster.data a)).
Proof.
  intros (l & Hl & _ & Hnd & _).
  unfold record_ids, Dinnercaster.meals_of.
  rewrite (get_prop_array_opt_chain _ _ _ Hl). exact Hnd.
Qed.

(** C4, as amended. When the cached state found at mount time and every
    payload that arrives carry pairwise distinct ids, none of them an id
    the generator hands out, the generator never repeats itself, and edits
    touch the meal and notes fields only, then after every sequence of
    deliveries, additions, edits and deletions no event has thrown and the
    ids in the view model are pairwise distinct. *)
Theorem ids_stay_distinct
    (widgetState : JsVal) (d : Delivery) (n : nat) (es : list Event) :
  cache_distinct h n widgetState ->
  payload_distinct h (payload d) ->
  Forall (event_distinct h) es ->
  exists a a',
    Dinnercaster.mount h widgetState d n = Ok a
    /\ Dinnercaster.run h a es = Ok a'
    /\ NoDup (record_ids (Dinnercaster.data a')).
Proof.
  intros Hcache Hpayload Hevents.
  destruct (mount_establishes widgetState d n Hcache Hpayload) as (a & Hmount & Hinv).
  destruct (run_keeps_distinct es Hevents a Hinv) as (a' & Hrun & Hinv').
  exists a, a'. repeat split; trivial.
  apply ids_distinct_record_ids. assumption.
Qed.

End UniqueIds.

(** C4 fails on a payload in which two records carry the same id: it is
    loaded as it is, and the view model holds that id twice. *)
Lemma duplicate_ids_survive_initial_load :
  exists a,
    Dinnercaster.mount clock_host JUndefined {| addr := 1; payload := twin_meals |} 0
    = Ok a
    /\ record_ids (Dinnercaster.data a) = [JStr "a1"; JStr "a1"]
    /\ ~ NoDup (record_ids (Dinnercaster.data a)).
Proof.
  eexists. split; [reflexivity |]. split; [reflexivity |].
  simpl. intros Hnd. inversion Hnd as [|? ? Hnotin _]; subst.
  apply Hnotin. left. reflexivity.
Qed.

(** A generator that repeats itself breaks uniqueness on its own: two blank
    records added on a host that hands out one and the same UUID. *)
Example repeated_uuid_repeats_id :
  exists a,
    Dinnercaster.run uuid_host
      {| Dinnercaster.data := view_model []; Dinnercaster.draws := 0;
         Dinnercaster.seen := None |}
      [AddMeal; AddMeal] = Ok a
    /\ record_ids (Dinnercaster.data a)
       = [JStr "3b241101-e2bb-4255-8caf-4136c566a962";
          JStr "3b241101-e2bb-4255-8caf-4136c566a962"].
Proof. eexists. split; reflexivity. Qed.

Lemma repeat_string_x_length (n : nat) : String.length (repeat_string n "x") = n.
Proof. induction n as [|n IH]; simpl; congruence. Qed.

Lemma counting_host_never_repeats : uid_never_repeats counting_host.
Proof.
  intros i j Heq. unfold uid_at in Heq. simpl in Heq.
  injection Heq as Heq.
  apply (f_equal String.length) in Heq.
  rewrite !repeat_string_x_length in Heq. exact Heq.
Qed.

Lemma ids_stay_distinct_witness :
  exists a a',
    Dinnercaster.mount counting_host JUndefined {| addr := 1; payload := two_meals |} 0
    = Ok a
    /\ Dinnercaster.run counting_host a
         [AddMeal;
          UpdateMeal (JStr "a1") (JObj [("meal", JStr "Tac")]);
          Deliver {| addr := 2; payload := soup_without_id |};
          DeleteMeal (JStr "b2")] = Ok a'
    /\ NoDup (record_ids (Dinnercaster.data a')).
Proof.
  assert (Hgen : forall v k, In v [JStr "a1"; JStr "b2"] -> uid_at counting_host k <> v).
  { intros v k [<- | [<- | []]]; unfold uid_at; simpl; discriminate. }
  apply (ids_stay_distinct counting_host counting_host_never_repeats).
  - left. reflexivity.
  - right. exists [tacos; ramen]. split; [reflexivity |].
    split; [repeat constructor |].
    split; [| exact Hgen].
    change (NoDup [JStr "a1"; JStr "b2"]).
    repeat constructor; simpl; intuition discriminate.
  - apply Forall_cons; [exact I |].
    apply Forall_cons; [reflexivity |].
    apply Forall_cons; [| apply Forall_cons; [exact I | apply Forall_nil]].
    right. exists [ramen; JObj [("meal", JStr "Soup")]]. split; [reflexivity |].
    split; [repeat constructor |].
    split.
    + change (NoDup [JStr "b2"]). repeat constructor. simpl. tauto.
    + intros v k Hin. apply Hgen. change (In v [JStr "b2"]) in Hin.
      destruct Hin as [<- | []]. right. left. reflexivity.
Defined.

(** What that run ends with: the soup got a generated id. *)
Example ids_stay_distinct_run :
  exists a a',
    Dinnercaster.mount counting_host JUndefined {| addr := 1; payload := two_meals |} 0
    = Ok a
    /\ Dinnercaster.run counting_host a
         [AddMeal;
          UpdateMeal (JStr "a1") (JObj [("meal", JStr "Tac")]);
          Deliver {| addr := 2; payload := soup_without_id |};
          DeleteMeal (JStr "b2")] = Ok a'
    /\ record_ids (Dinnercaster.data a') = [JStr "uuid-x"].
Proof. do 2 eexists. repeat split. Qed.

(* ================================================================== *)
(** ** How the edits of the view model compose *)

Section StrictEquality.

Lemma strict_eq_primitive (a b : JsVal) :
  primitive b = true -> (strict_eq a b = true <-> a = b).
Proof.
  intros Hb.
  destruct a, b; simpl in *; try discriminate Hb;
    try (split; [intros H; discriminate H | intros H; discriminate H]);
    try (split; reflexivity).
  - rewrite Bool.eqb_true_iff. split; congruence.
  - rewrite Z.eqb_eq. split; congruence.
  - rewrite String.eqb_eq. split; congruence.
Qed.

Lemma strict_eq_primitive_false (a b : JsVal) :
  primitive b = true -> (strict_eq a b = false <-> a <> b).
Proof.
  intros Hb. pose proof (strict_eq_primitive a b Hb) as Hspec.
  destruct (strict_eq a b).
  - split; [discriminate | intros Hne; exfalso; apply Hne, Hspec; reflexivity].
  - split; [intros _ Heq; apply Hspec in Heq; discriminate Heq | reflexivity].
Qed.

Lemma uid_at_is_string (h : Host) (n : nat) : exists s, uid_at h n = JStr s.
Proof.
  unfold uid_at, Dinnercaster.uid.
  destruct (crypto_randomUUID h); eexists; reflexivity.
Qed.

Lemma uid_at_primitive (h : Host) (n : nat) : primitive (uid_at h n) = true.
Proof. destruct (uid_at_is_string h n) as (s & ->). reflexivity. Qed.

End StrictEquality.

Section Composition.

Variable l : list JsVal.
Hypothesis records_readable : Forall (fun m => readable m = true) l.

Lemma filter_readable (keep : JsVal -> bool) :
  Forall (fun m => readable m = true) (filter keep l).
Proof.
  apply Forall_forall. intros m Hm. apply filter_In in Hm.
  apply (proj1 (Forall_forall _ _) records_readable). tauto.
Qed.

Lemma map_edit_readable (id val : JsVal) :
  Forall (fun m => readable m = true) (map (edit_record id val) l).
Proof.
  apply Forall_forall. intros m' Hm'.
  apply in_map_iff in Hm' as (m & <- & Hm).
  apply edit_record_readable.
  apply (proj1 (Forall_forall _ _) records_readable). assumption.
Qed.

Lemma other_id_edit_record (id id' val m : JsVal) :
  edits_meal_or_notes val = true ->
  other_id id' (edit_record id val m) = other_id id' m.
Proof.
  intros Hval. unfold other_id.
  rewrite edit_record_keeps_id by assumption. reflexivity.
Qed.

Lemma filter_after_edit (id val : JsVal) (t : list JsVal) :
  edits_meal_or_notes val = true ->
  filter (other_id id) (map (edit_record id val) t) = filter (other_id id) t.
Proof.
  intros Hval.
  induction t as [|m rest IH]; simpl; [reflexivity |].
  rewrite other_id_edit_record by assumption.
  destruct (other_id id m) eqn:Hother.
  - rewrite IH. f_equal. apply edit_record_other.
    unfold other_id in Hother. apply negb_true_iff. assumption.
  - exact IH.
Qed.

(** X1. Deleting a record makes an earlier edit of it irrelevant:
    [updateMealById(id, val)] followed by [deleteMealById(id)] gives what
    [deleteMealById(id)] alone gives, for an edit of the meal or notes
    field. *)
Theorem delete_after_update_discards_edit (id val : JsVal) :
  primitive id = true ->
  edits_meal_or_notes val = true ->
  (edited <~ Dinnercaster.updateMealById id val (view_model l) ;;
   Dinnercaster.deleteMealById id edited)
  = Dinnercaster.deleteMealById id (view_model l).
Proof.
  intros _ Hval.
  rewrite (updateMealById_on_array id l records_readable val _ (view_model_meals l)).
  cbn [res_bind].
  rewrite (deleteMealById_on_array id _ (map_edit_readable id val) _
             (view_model_meals _)).
  rewrite (deleteMealById_on_array id l records_readable _ (view_model_meals l)).
  rewrite filter_after_edit by assumption. reflexivity.
Qed.

Lemma filter_filter_swap (p q : JsVal -> bool) (t : list JsVal) :
  filter p (filter q t) = filter q (filter p t).
Proof.
  induction t as [|m rest IH]; simpl; [reflexivity |].
  destruct (q m) eqn:Hq, (p m) eqn:Hp; simpl; rewrite ?Hq, ?Hp, IH; reflexivity.
Qed.

Lemma filter_twice (p : JsVal -> bool) (t : list JsVal) :
  filter p (filter p t) = filter p t.
Proof.
  induction t as [|m rest IH]; simpl; [reflexivity |].
  destruct (p m) eqn:Hp; simpl; rewrite ?Hp, IH; reflexivity.
Qed.

(** X2. Deleting is idempotent and the order of two deletions does not
    matter. *)
Theorem deletions_commute (id1 id2 : JsVal) :
  primitive id1 = true ->
  primitive id2 = true ->
  (r <~ Dinnercaster.deleteMealById id1 (view_model l) ;;
   Dinnercaster.deleteMealById id1 r)
  = Dinnercaster.deleteMealById id1 (view_model l)
  /\ (r <~ Dinnercaster.deleteMealById id1 (view_model l) ;;
      Dinnercaster.deleteMealById id2 r)
     = (r <~ Dinnercaster.deleteMealById id2 (view_model l) ;;
        Dinnercaster.deleteMealById id1 r).
Proof.
  intros _ _.
  rewrite !(deleteMealById_on_array _ l records_readable _ (view_model_meals l)).
  cbn [res_bind].
  rewrite !(deleteMealById_on_array _ _ (filter_readable _) _ (view_model_meals _)).
  split.
  - rewrite filter_twice. reflexivity.
  - rewrite filter_filter_swap. reflexivity.
Qed.

(** X3. Adding a blank record and deleting it again by its id gives back the
    view model there was, when no record had that id before. *)
Theorem delete_undoes_add (h : Host) (n : nat) :
  (forall m, In m l -> id_of m <> uid_at h n) ->
  (added <- Dinnercaster.addMeal h (view_model l) ;;
   lift (Dinnercaster.deleteMealById (uid_at h n) added)) n
  = Ok (view_model l, S n).
Proof.
  intros Hfresh.
  unfold bind at 1.
  rewrite (addMeal_on_array h _ l n (view_model_meals l)).
  unfold lift.
  match goal with
  | |- context [view_model (?r :: l)] =>
      assert (Hread : Forall (fun m => readable m = true) (r :: l))
        by (constructor; [reflexivity | exact records_readable])
  end.
  rewrite (deleteMealById_on_array (uid_at h n) _ Hread _ (view_model_meals _)).
  cbn [filter]. unfold other_id at 1.
  change (id_of (JObj _)) with (uid_at h n).
  assert (Hself : strict_eq (uid_at h n) (uid_at h n) = true)
    by (apply strict_eq_primitive; [apply uid_at_primitive | reflexivity]).
  rewrite Hself. cbn [negb].
  rewrite filter_other_id_no_match; [reflexivity |].
  intros m Hm. apply strict_eq_primitive_false; [apply uid_at_primitive |].
  apply Hfresh. assumption.
Qed.

(** X4. With pairwise distinct ids, deleting an id that is there removes
    exactly one record. *)
Theorem delete_removes_one (id : JsVal) :
  primitive id = true ->
  NoDup (map id_of l) ->
  In id (map id_of l) ->
  exists l',
    Dinnercaster.deleteMealById id (view_model l) = Ok (view_model l')
    /\ S (List.length l') = List.length l.
Proof.
  intros Hprim Hnd Hin.
  exists (filter (other_id id) l).
  split; [apply (deleteMealById_on_array id l records_readable), view_model_meals |].
  clear records_readable.
  induction l as [|m rest IH]; [destruct Hin |].
  simpl in Hnd, Hin |- *. inversion Hnd as [|? ? Hnotin Hrest]; subst.
  unfold other_id at 1 2.
  destruct (strict_eq (id_of m) id) eqn:Hm; cbn [negb].
  - apply (strict_eq_primitive _ _ Hprim) in Hm. subst id.
    rewrite filter_other_id_no_match; [reflexivity |].
    intros m' Hm'. apply strict_eq_primitive_false; [assumption |].
    intros Heq. apply Hnotin. rewrite <- Heq. apply in_map. assumption.
  - simpl. f_equal. apply IH; [assumption |].
    destruct Hin as [Heq | Hin]; [| assumption].
    apply (strict_eq_primitive_false _ _ Hprim) in Hm. contradiction.
Qed.

(** X5. Edits of two records with different ids commute. *)
Theorem updates_of_different_ids_commute (id1 id2 val1 val2 : JsVal) :
  primitive id1 = true ->
  primitive id2 = true ->
  id1 <> id2 ->
  edits_meal_or_notes val1 = true ->
  edits_meal_or_notes val2 = true ->
  (r <~ Dinnercaster.updateMealById id1 val1 (view_model l) ;;
   Dinnercaster.updateMealById id2 val2 r)
  = (r <~ Dinnercaster.updateMealById id2 val2 (view_model l) ;;
     Dinnercaster.updateMealById id1 val1 r).
Proof.
  intros Hp1 Hp2 Hne Hval1 Hval2.
  rewrite !(updateMealById_on_array _ l records_readable _ _ (view_model_meals l)).
  cbn [res_bind].
  rewrite !(updateMealById_on_array _ _ (map_edit_readable _ _) _ _
              (view_model_meals _)).
  do 2 f_equal. rewrite !map_map. apply map_ext. intros m.
  unfold edit_record at 2 4.
  destruct (strict_eq (id_of m) id1) eqn:H1, (strict_eq (id_of m) id2) eqn:H2.
  - apply (strict_eq_primitive _ _ Hp1) in H1.
    apply (strict_eq_primitive _ _ Hp2) in H2. congruence.
  - unfold edit_record. rewrite spread2_keeps_id by assumption.
    rewrite H1, H2. reflexivity.
  - unfold edit_record. rewrite spread2_keeps_id by assumption.
    rewrite H1, H2. reflexivity.
  - unfold edit_record. rewrite H1, H2. reflexivity.
Qed.

End Composition.

(* ================================================================== *)
(** ** When the operations throw *)

Section Throws.

Lemma res_mapM_ok_inv {A B : Type} (f : A -> Res B) (t : list A) (r : list B) :
  res_mapM f t = Ok r -> Forall (fun x => exists y, f x = Ok y) t.
Proof.
  revert r. induction t as [|x rest IH]; simpl; intros r Hr.
  - constructor.
  - destruct (f x) as [y|msg] eqn:Hx; simpl in Hr; [| discriminate Hr].
    destruct (res_mapM f rest) as [ys|msg] eqn:Hrest; simpl in Hr; [| discriminate Hr].
    constructor; [exists y; exact Hx | apply (IH ys); reflexivity].
Qed.

Lemma res_filterM_ok_inv {A : Type} (p : A -> Res bool) (t : list A) (r : list A) :
  res_filterM p t = Ok r -> Forall (fun x => exists b, p x = Ok b) t.
Proof.
  revert r. induction t as [|x rest IH]; simpl; intros r Hr.
  - constructor.
  - destruct (p x) as [b|msg] eqn:Hx; simpl in Hr; [| discriminate Hr].
    destruct (res_filterM p rest) as [ys|msg] eqn:Hrest; simpl in Hr; [| discriminate Hr].
    constructor; [exists b; exact Hx | apply (IH ys); reflexivity].
Qed.

Lemma get_prop_ok_readable (m : JsVal) (k : string) (v : JsVal) :
  get_prop m k = Ok v -> readable m = true.
Proof. destruct m; simpl; intros H; try discriminate H; reflexivity. Qed.

Lemma array_map_pure_ok_inv (v : JsVal) (f : JsVal -> Res JsVal) (r : JsVal) :
  array_map_pure v f = Ok r -> exists t, v = JArr t.
Proof. destruct v; simpl; intros H; try discriminate H. eexists; reflexivity. Qed.

Lemma array_filter_ok_inv (v : JsVal) (p : JsVal -> Res bool) (r : JsVal) :
  array_filter v p = Ok r -> exists t, v = JArr t.
Proof. destruct v; simpl; intros H; try discriminate H. eexists; reflexivity. Qed.

(** X6. [updateMealById] and [deleteMealById] return exactly when the state
    they are applied to has a [meals] array without a [null] or [undefined]
    element; on any other state they throw a TypeError. *)
Theorem edit_and_delete_return_iff (id val prev : JsVal) :
  ((exists r, Dinnercaster.updateMealById id val prev = Ok r)
   <-> exists t, get_prop prev "meals" = Ok (JArr t)
                 /\ Forall (fun m => readable m = true) t)
  /\ ((exists r, Dinnercaster.deleteMealById id prev = Ok r)
      <-> exists t, get_prop prev "meals" = Ok (JArr t)
                    /\ Forall (fun m => readable m = true) t).
Proof.
  split; split.
  - intros (r & Hr). unfold Dinnercaster.updateMealById in Hr.
    destruct (get_prop prev "meals") as [v|msg]; simpl in Hr; [| discriminate Hr].
    destruct (array_map_pure v _) as [mapped|msg] eqn:Hmap; [| discriminate Hr].
    destruct (array_map_pure_ok_inv _ _ _ Hmap) as (t & ->).
    exists t. split; [reflexivity |].
    simpl in Hmap.
    destruct (res_mapM _ t) as [ys|msg] eqn:Hys; [| discriminate Hmap].
    eapply Forall_impl; [| exact (res_mapM_ok_inv _ _ _ Hys)].
    intros m (y & Hy). simpl in Hy.
    destruct (get_prop m "id") as [w|msg] eqn:Hw; [| discriminate Hy].
    exact (get_prop_ok_readable _ _ _ Hw).
  - intros (t & Ht & Hread). eexists.
    apply (updateMealById_on_array id t Hread val prev Ht).
  - intros (r & Hr). unfold Dinnercaster.deleteMealById in Hr.
    destruct (get_prop prev "meals") as [v|msg]; simpl in Hr; [| discriminate Hr].
    destruct (array_filter v _) as [kept|msg] eqn:Hkeep; [| discriminate Hr].
    destruct (array_filter_ok_inv _ _ _ Hkeep) as (t & ->).
    exists t. split; [reflexivity |].
    simpl in Hkeep.
    destruct (res_filterM _ t) as [ys|msg] eqn:Hys; [| discriminate Hkeep].
    eapply Forall_impl; [| exact (res_filterM_ok_inv _ _ _ Hys)].
    intros m (b & Hb). simpl in Hb.
    destruct (get_prop m "id") as [w|msg] eqn:Hw; [| discriminate Hb].
    exact (get_prop_ok_readable _ _ _ Hw).
  - intros (t & Ht & Hread). eexists.
    apply (deleteMealById_on_array id t Hread prev Ht).
Qed.

Variable h : Host.

Lemma mapM_addMealDefaults_ok_inv (t : list JsVal) :
  forall n r, mapM (Dinnercaster.addMealDefaults h) t n = Ok r ->
              Forall (fun m => readable m = true) t.
Proof.
  induction t as [|m rest IH]; intros n r Hr.
  - constructor.
  - destruct (readable m) eqn:Hm.
    + constructor; [assumption |].
      simpl in Hr. unfold bind at 1 in Hr.
      rewrite (addMealDefaults_readable h m n Hm) in Hr.
      destruct (nullish (id_of m)); unfold bind at 1 in Hr.
      * destruct (mapM _ rest (S n)) as [[ys k]|msg] eqn:Hrest; [| discriminate Hr].
        exact (IH _ _ Hrest).
      * destruct (mapM _ rest n) as [[ys k]|msg] eqn:Hrest; [| discriminate Hr].
        exact (IH _ _ Hrest).
    + exfalso. simpl in Hr. unfold bind at 1 in Hr.
      destruct (addMealDefaults_unreadable h m n Hm) as (msg & Hmsg).
      rewrite Hmsg in Hr. discriminate Hr.
Qed.

Lemma array_map_ok_inv (v : JsVal) (f : JsVal -> M JsVal) (n : nat) (r : JsVal * nat) :
  array_map v f n = Ok r -> exists t, v = JArr t.
Proof. destruct v; simpl; intros H; try discriminate H. eexists; reflexivity. Qed.

Lemma or_else_array_cases (v : JsVal) (t : list JsVal) :
  or_else v (JArr []) = JArr t -> (truthy v = false /\ t = []) \/ v = JArr t.
Proof.
  unfold or_else. destruct (truthy v) eqn:Hv; intros H.
  - right. assumption.
  - left. split; [reflexivity | congruence].
Qed.

Lemma buildInitialData_ok_inv (toolOutput : JsVal) (n : nat) :
  (exists r, Dinnercaster.buildInitialData h toolOutput n = Ok r) ->
  truthy (opt_chain toolOutput "meals") = false
  \/ exists t, opt_chain toolOutput "meals" = JArr t
               /\ Forall (fun m => readable m = true) t.
Proof.
  intros (r & Hr). unfold Dinnercaster.buildInitialData, bind in Hr.
  destruct (array_map _ _ n) as [[meals k]|msg] eqn:Hmap; [| discriminate Hr].
  destruct (array_map_ok_inv _ _ _ _ Hmap) as (t & Ht).
  destruct (or_else_array_cases _ _ Ht) as [[Hfalsy _] | Harr]; [left; assumption |].
  right. exists t. split; [assumption |].
  rewrite Ht in Hmap. simpl in Hmap. unfold bind in Hmap.
  destruct (mapM _ t n) as [[ys k']|msg] eqn:Hys; [| discriminate Hmap].
  exact (mapM_addMealDefaults_ok_inv t n _ Hys).
Qed.

Lemma buildInitialData_ok_intro (toolOutput : JsVal) (n : nat) :
  (truthy (opt_chain toolOutput "meals") = false
   \/ exists t, opt_chain toolOutput "meals" = JArr t
                /\ Forall (fun m => readable m = true) t) ->
  exists r, Dinnercaster.buildInitialData h toolOutput n = Ok r.
Proof.
  intros [Hfalsy | (t & Ht & Hread)].
  - eexists. apply buildInitialData_falsy. assumption.
  - destruct (mapM_addMealDefaults h t Hread n) as (t' & n' & Hrun & _).
    eexists. rewrite (buildInitialData_array h _ _ _ Ht), Hrun. reflexivity.
Qed.

(** X7. [buildInitialData] returns exactly when the [meals] field of the
    payload is falsy (absent, [null], [0], the empty string, [false]) or is an
    array without a [null] or [undefined] element; on any other payload it
    throws a TypeError. *)
Theorem buildInitialData_returns_iff (toolOutput : JsVal) (n : nat) :
  (exists r, Dinnercaster.buildInitialData h toolOutput n = Ok r)
  <-> (truthy (opt_chain toolOutput "meals") = false
       \/ exists t, opt_chain toolOutput "meals" = JArr t
                    /\ Forall (fun m => readable m = true) t).
Proof.
  split.
  - apply buildInitialData_ok_inv.
  - apply buildInitialData_ok_intro.
Qed.

End Throws.

(* ================================================================== *)
(** ** The normal form of built records *)

Section NormalForm.

Variable h : Host.

Lemma record_with_id_normalised (id m : JsVal) :
  nullish id = false -> normalised_record (record_with_id id m).
Proof.
  intros Hid. unfold normalised_record, record_with_id.
  do 4 eexists. split; [reflexivity |].
  split; [assumption |].
  split; [| split].
  - destruct (opt_chain m "date"); simpl; try (left; reflexivity).
    right. eexists. reflexivity.
  - unfold coalesce. destruct (nullish (opt_chain m "meal")) eqn:Hm; [reflexivity | exact Hm].
  - unfold coalesce. destruct (nullish (opt_chain m "notes")) eqn:Hm; [reflexivity | exact Hm].
Qed.

Lemma uid_at_not_nullish (n : nat) : nullish (uid_at h n) = false.
Proof. destruct (uid_at_is_string h n) as (s & ->). reflexivity. Qed.

(** A normalised record goes through [addMealDefaults] unchanged, and no id
    is drawn for it. *)
Lemma addMealDefaults_normalised (r : JsVal) (k : nat) :
  normalised_record r -> Dinnercaster.addMealDefaults h r k = Ok (r, k).
Proof.
  intros (id & date & meal & notes & -> & Hid & Hdate & Hmeal & Hnotes).
  rewrite addMealDefaults_readable by reflexivity.
  change (id_of (JObj _)) with id. rewrite Hid.
  unfold record_with_id.
  change (opt_chain (JObj _) "date") with date.
  change (opt_chain (JObj _) "meal") with meal.
  change (opt_chain (JObj _) "notes") with notes.
  unfold coalesce. rewrite Hmeal, Hnotes.
  destruct Hdate as [-> | (s & ->)]; reflexivity.
Qed.

Lemma mapM_addMealDefaults_normalised (t : list JsVal) (k : nat) :
  Forall normalised_record t ->
  mapM (Dinnercaster.addMealDefaults h) t k = Ok (t, k).
Proof.
  induction 1 as [|r rest Hr _ IH]; simpl.
  - reflexivity.
  - unfold bind at 1. rewrite (addMealDefaults_normalised r k Hr).
    unfold bind at 1. rewrite IH. reflexivity.
Qed.

(** Whatever the build returns is [{ meals: l' }] with every record
    normalised. *)
Lemma buildInitialData_shape (toolOutput built : JsVal) (n n' : nat) :
  Dinnercaster.buildInitialData h toolOutput n = Ok (built, n') ->
  exists l', built = view_model l' /\ Forall normalised_record l'.
Proof.
  intros Hbuilt.
  destruct (buildInitialData_ok_inv h toolOutput n (ex_intro _ _ Hbuilt))
    as [Hfalsy | (t & Ht & Hread)].
  - rewrite (buildInitialData_falsy h _ _ Hfalsy) in Hbuilt.
    injection Hbuilt as <- _. exists []. split; [reflexivity | constructor].
  - destruct (mapM_addMealDefaults h t Hread n) as (t' & k & Hrun & _ & Hrel).
    rewrite (buildInitialData_array h _ _ _ Ht), Hrun in Hbuilt.
    injection Hbuilt as <- _. exists t'. split; [reflexivity |].
    clear Hrun Hread Ht.
    induction Hrel as [|m r ms rs (j & _ & _ & ->) _ IH]; constructor.
    + destruct (nullish (id_of m)) eqn:Hid.
      * apply record_with_id_normalised, uid_at_not_nullish.
      * apply record_with_id_normalised. assumption.
    + exact IH.
Qed.

(** X8. Every record of a built view model has the four fields [id],
    [date], [meal], [notes] in this order, with an id, a meal name and notes
    that are neither [null] nor [undefined] and a date that is a string or
    [null]; there are as many records as the payload had, and ids are only
    drawn forwards. *)
Theorem built_records_normalised (toolOutput built : JsVal) (n n' : nat) :
  Dinnercaster.buildInitialData h toolOutput n = Ok (built, n') ->
  exists l' t,
    built = view_model l'
    /\ Forall normalised_record l'
    /\ Dinnercaster.meals_of toolOutput = JArr t
    /\ List.length l' = List.length t
    /\ n <= n'.
Proof.
  intros Hbuilt.
  destruct (buildInitialData_shape _ _ _ _ Hbuilt) as (l' & -> & Hnorm).
  destruct (buildInitialData_ok_inv h toolOutput n (ex_intro _ _ Hbuilt))
    as [Hfalsy | (t & Ht & Hread)].
  - rewrite (buildInitialData_falsy h _ _ Hfalsy) in Hbuilt.
    injection Hbuilt as <- <-.
    exists [], []. unfold Dinnercaster.meals_of. rewrite (falsy_or_else _ _ Hfalsy).
    repeat split; [constructor | lia].
  - destruct (mapM_addMealDefaults h t Hread n) as (t' & k & Hrun & Hle & Hrel).
    rewrite (buildInitialData_array h _ _ _ Ht), Hrun in Hbuilt.
    injection Hbuilt as <- <-.
    exists t', t. unfold Dinnercaster.meals_of. rewrite Ht.
    repeat split; [exact Hnorm | | exact Hle].
    symmetry. eapply Forall2_length. eassumption.
Qed.

(** X9. Building is idempotent: a built view model, handed to
    [buildInitialData] again, comes back as it is and no id is drawn. *)
Theorem buildInitialData_idempotent (toolOutput built : JsVal) (n n' k : nat) :
  Dinnercaster.buildInitialData h toolOutput n = Ok (built, n') ->
  Dinnercaster.buildInitialData h built k = Ok (built, k).
Proof.
  intros Hbuilt.
  destruct (buildInitialData_shape _ _ _ _ Hbuilt) as (l' & -> & Hnorm).
  rewrite (buildInitialData_array h (view_model l') l' k eq_refl).
  rewrite (mapM_addMealDefaults_normalised l' k Hnorm). reflexivity.
Qed.

(** X10. After mounting, a payload with a meals array has replaced whatever
    the cache held: the view model is the build of the payload.  The cached
    state is what the widget shows only when the payload has no meals. *)
Theorem mount_prefers_tool_output (widgetState : JsVal) (d : Delivery) (n : nat) :
  (forall t, opt_chain (payload d) "meals" = JArr t ->
             Forall (fun m => readable m = true) t ->
             exists a n0,
               n <= n0
               /\ Dinnercaster.mount h widgetState d n = Ok a
               /\ Dinnercaster.buildInitialData h (payload d) n0
                  = Ok (Dinnercaster.data a, Dinnercaster.draws a))
  /\ (truthy (opt_chain (payload d) "meals") = false ->
      truthy (opt_chain widgetState "meals") = true ->
      Dinnercaster.mount h widgetState d n
      = Ok {| Dinnercaster.data := widgetState;
              Dinnercaster.draws := n;
              Dinnercaster.seen := Some d |}).
Proof.
  split.
  - intros t Ht Hread.
    assert (Htruthy : truthy (opt_chain (payload d) "meals") = true)
      by (rewrite Ht; reflexivity).
    assert (Hinit : exists v n0,
               n <= n0
               /\ Dinnercaster.initialData h widgetState (payload d) n = Ok (v, n0)).
    { unfold Dinnercaster.initialData.
      destruct (truthy (opt_chain widgetState "meals")).
      - exists widgetState, n. split; [lia | reflexivity].
      - rewrite Htruthy.
        destruct (mapM_addMealDefaults h t Hread n) as (t' & n0 & Hrun & Hle & _).
        exists (view_model t'), n0. split; [assumption |].
        rewrite (buildInitialData_array h _ _ _ Ht), Hrun. reflexivity. }
    destruct Hinit as (v & n0 & Hle & Hinit).
    destruct (mapM_addMealDefaults h t Hread n0) as (t' & n1 & Hrun & _ & _).
    assert (Hbuilt : Dinnercaster.buildInitialData h (payload d) n0
                     = Ok (view_model t', n1))
      by (rewrite (buildInitialData_array h _ _ _ Ht), Hrun; reflexivity).
    eexists. exists n0. split; [exact Hle |].
    unfold Dinnercaster.mount. rewrite Hinit.
    rewrite (deliver_replaces_when_built h _ d (view_model t') n1);
      [split; [reflexivity | exact Hbuilt] | | exact Htruthy | exact Hbuilt].
    intros d0 Hd0. discriminate Hd0.
  - intros Hfalsy Hcache.
    unfold Dinnercaster.mount, Dinnercaster.initialData. rewrite Hcache.
    unfold ret, Dinnercaster.deliver. cbn [Dinnercaster.seen Dinnercaster.data Dinnercaster.draws].
    unfold Dinnercaster.syncToolOutput. rewrite Hfalsy. reflexivity.
Qed.

End NormalForm.

(* ================================================================== *)
(** ** What an edit writes *)

Section EditWrites.

Lemma spread2_reads (m val : JsVal) (k : string) :
  opt_chain (spread2 m val) k = merged_prop m val k.
Proof.
  unfold spread2, opt_chain, prop_or_undefined, merged_prop.
  destruct (assign_spec (own_props m) [] (NoDup_nil _)) as [Hnd Hm].
  destruct (assign_spec (own_props val) _ Hnd) as [_ Hv].
  rewrite Hv, Hm. unfold prop_or_undefined. simpl.
  destruct (lookup k (own_props val)); [reflexivity |].
  destruct (lookup k (own_props m)); reflexivity.
Qed.

(** X11. After [updateMealById(id, val)] every record with the id reads, for
    each property, the value [val] gives it, and the value it had before for
    a property [val] does not mention; the list keeps its length. *)
Theorem updateMealById_writes_val (id val : JsVal) (l : list JsVal) :
  primitive id = true ->
  Forall (fun m => readable m = true) l ->
  exists l',
    Dinnercaster.updateMealById id val (view_model l) = Ok (view_model l')
    /\ Forall2 (fun m m' =>
                  strict_eq (id_of m) id = true ->
                  forall k, opt_chain m' k = merged_prop m val k) l l'.
Proof.
  intros _ Hread.
  exists (map (edit_record id val) l).
  split; [apply (updateMealById_on_array id l Hread), view_model_meals |].
  clear Hread. induction l as [|m rest IH]; simpl; constructor; [| exact IH].
  intros Hmatch k. unfold edit_record. rewrite Hmatch. apply spread2_reads.
Qed.

End EditWrites.

(* ================================================================== *)
(** ** The date [addMeal] writes is the date [formatDate] reads *)

Section DateRoundTrip.

Lemma parse_digits_numeral (d : Decimal.uint) (a : Z) :
  parse_digits (NilEmpty.string_of_uint d) (Some a) = Some (dec_value d a).
Proof.
  revert a. induction d; intros a; simpl; try reflexivity; rewrite IHd; reflexivity.
Qed.

Lemma dec_value_acc (d : Decimal.uint) (acc : positive) :
  Z.pos (Pos.of_uint_acc d acc) = dec_value d (Z.pos acc).
Proof.
  revert acc.
  induction d; intros acc; cbn [Pos.of_uint_acc dec_value]; try reflexivity;
    rewrite IHd; f_equal; lia.
Qed.

Lemma dec_value_of_uint (d : Decimal.uint) :
  Z.of_N (Pos.of_uint d) = dec_value d 0.
Proof.
  induction d; cbn [Pos.of_uint dec_value]; try reflexivity; try exact IHd;
    cbn [Z.of_N]; rewrite dec_value_acc; reflexivity.
Qed.

(** The decimal text of a number that is not negative is a run of digits
    that stands for the number. *)
Lemma string_of_Z_numeral (z : Z) :
  (0 <= z)%Z ->
  exists d, string_of_Z z = NilEmpty.string_of_uint d
            /\ d <> Decimal.Nil /\ dec_value d 0 = z.
Proof.
  intros Hz. destruct z as [|p|p]; [| | lia].
  - exists (Decimal.D0 Decimal.Nil). repeat split. discriminate.
  - exists (Pos.to_uint p).
    pose proof (DecimalPos.Unsigned.to_uint_nonnil p) as Hnil.
    split; [| split; [exact Hnil |]].
    + unfold string_of_Z, NilZero.string_of_int, NilZero.string_of_uint. simpl.
      destruct (Pos.to_uint p); [contradiction | reflexivity ..].
    + rewrite <- dec_value_of_uint, DecimalPos.Unsigned.of_to. reflexivity.
Qed.

Lemma numeral_no_dash (d : Decimal.uint) : no_dash (NilEmpty.string_of_uint d) = true.
Proof. induction d; simpl; trivial. Qed.

Lemma numeral_starts_with_digit (d : Decimal.uint) :
  d <> Decimal.Nil -> starts_with_digit (NilEmpty.string_of_uint d) = true.
Proof. destruct d; intros Hd; [contradiction | reflexivity ..]. Qed.

Lemma parse_digits_numeral_fresh (d : Decimal.uint) :
  d <> Decimal.Nil ->
  parse_digits (NilEmpty.string_of_uint d) None = Some (dec_value d 0).
Proof.
  destruct d; intros Hd; [contradiction | ..];
    cbn [NilEmpty.string_of_uint parse_digits digit_value nat_of_ascii];
    simpl; apply parse_digits_numeral.
Qed.

(** [parseInt] of a text that starts with a digit reads its digits. *)
Lemma parseInt10_digits (s : string) :
  starts_with_digit s = true -> parseInt10 s = parse_digits s None.
Proof.
  destruct s as [|c rest]; [discriminate |].
  unfold starts_with_digit, digit_value.
  destruct c as [[] [] [] [] [] [] [] []]; simpl; intros H;
    try discriminate H; reflexivity.
Qed.

Lemma no_dash_append (s t : string) :
  no_dash s = true -> no_dash t = true -> no_dash (s ++ t) = true.
Proof.
  induction s as [|c rest IH]; simpl; intros Hs Ht; [assumption |].
  apply andb_true_iff in Hs as [Hc Hrest].
  rewrite Hc. simpl. apply IH; assumption.
Qed.

Lemma repeat_zero_no_dash (k : nat) : no_dash (repeat_string k "0") = true.
Proof. induction k as [|k IH]; simpl; trivial. Qed.

Lemma parse_digits_leading_zeros (k : nat) (t : string) :
  parse_digits (repeat_string k "0" ++ t) (Some 0%Z) = parse_digits t (Some 0%Z).
Proof. induction k as [|k IH]; simpl; [reflexivity | exact IH]. Qed.

(** Padding with zeros changes neither the number read nor the absence of
    dashes. *)
Lemma padStart0_numeral (width : nat) (d : Decimal.uint) :
  d <> Decimal.Nil ->
  no_dash (padStart0 width (NilEmpty.string_of_uint d)) = true
  /\ parseInt10 (padStart0 width (NilEmpty.string_of_uint d)) = Some (dec_value d 0).
Proof.
  intros Hd. unfold padStart0.
  split.
  - apply no_dash_append; [apply repeat_zero_no_dash | apply numeral_no_dash].
  - destruct (width - String.length (NilEmpty.string_of_uint d)) as [|k].
    + simpl. rewrite parseInt10_digits by (apply numeral_starts_with_digit; assumption).
      apply parse_digits_numeral_fresh. assumption.
    + rewrite parseInt10_digits by reflexivity.
      cbn [repeat_string]. change ("0" ++ repeat_string k "0" ++ NilEmpty.string_of_uint d)
        with (String "0" (repeat_string k "0" ++ NilEmpty.string_of_uint d)).
      change (parse_digits (String "0" ?s) None) with (parse_digits s (Some 0%Z)).
      cbn [parse_digits digit_value]. simpl.
      rewrite parse_digits_leading_zeros. apply parse_digits_numeral.
Qed.

Lemma append_snoc (cur : string) (c : ascii) (s : string) :
  (cur ++ String c EmptyString) ++ s = cur ++ String c s.
Proof. induction cur as [|x cur IH]; simpl; [reflexivity | rewrite IH; reflexivity]. Qed.

Lemma append_empty (s : string) : s ++ "" = s.
Proof. induction s as [|c s IH]; simpl; [reflexivity | rewrite IH; reflexivity]. Qed.

(** Splitting at the dashes: a part without a dash ends at the next dash, or
    at the end of the text. *)
Lemma split_dash_aux_part (s : string) :
  no_dash s = true ->
  forall cur t,
    split_dash_aux (s ++ String "-" t) cur = (cur ++ s) :: split_dash_aux t EmptyString
    /\ split_dash_aux s cur = [cur ++ s].
Proof.
  induction s as [|c rest IH]; simpl; intros Hs cur t.
  - rewrite append_empty. split; reflexivity.
  - apply andb_true_iff in Hs as [Hc Hrest].
    apply negb_true_iff in Hc. rewrite Hc.
    destruct (IH Hrest (cur ++ String c EmptyString) t) as [Hcut Hend].
    rewrite Hcut, Hend, append_snoc. split; reflexivity.
Qed.

End DateRoundTrip.

Section DateRoundTripMain.

Variable h : Host.
Variables (today : JsDate) (y mo dd : Z).
Hypothesis today_year : getFullYear h today = Some y.
Hypothesis today_month : getMonth h today = Some mo.
Hypothesis today_day : getDate h today = Some dd.
Hypothesis year_not_negative : (0 <= y)%Z.
Hypothesis month_not_negative : (0 <= mo)%Z.
Hypothesis day_positive : (1 <= dd)%Z.

Lemma dateStr_of_parts :
  Dinnercaster.dateStr_of h today
  = string_of_Z y ++ String "-" (padStart0 2 (string_of_Z (mo + 1))
                                 ++ String "-" (padStart0 2 (string_of_Z dd))).
Proof.
  unfold Dinnercaster.dateStr_of.
  rewrite today_year, today_month, today_day. reflexivity.
Qed.

(** X12. The text [addMeal] stamps on a new record, for a local date of year
    [y] (not negative), month index [mo] and day [dd], splits at its dashes
    into three parts that [parseInt] reads as [y], [mo + 1] and [dd]; so
    [formatDate] renders the record with [new Date(y, mo, dd)], the day it
    was added. *)
Theorem added_date_reads_back (tick : nat) :
  split_dash (Dinnercaster.dateStr_of h today)
  = [string_of_Z y; padStart0 2 (string_of_Z (mo + 1)); padStart0 2 (string_of_Z dd)]
  /\ map parseInt10 (split_dash (Dinnercaster.dateStr_of h today))
     = [Some y; Some (mo + 1)%Z; Some dd]
  /\ exists opts,
       Dinnercaster.formatDate h tick (JStr (Dinnercaster.dateStr_of h today))
       = Ok (toLocaleDateString h (Date_of_ymd h (Some y) mo dd) opts).
Proof.
  destruct (string_of_Z_numeral y year_not_negative) as (dy & Hsy & Hdy & Hvy).
  destruct (string_of_Z_numeral (mo + 1)%Z ltac:(lia)) as (dm & Hsm & Hdm & Hvm).
  destruct (string_of_Z_numeral dd ltac:(lia)) as (dd' & Hsd & Hdd & Hvd).
  destruct (padStart0_numeral 2 dm Hdm) as [Hdash_m Hparse_m].
  destruct (padStart0_numeral 2 dd' Hdd) as [Hdash_d Hparse_d].
  assert (Hparse_y : parseInt10 (string_of_Z y) = Some y).
  { rewrite Hsy, parseInt10_digits by (apply numeral_starts_with_digit; assumption).
    rewrite parse_digits_numeral_fresh by assumption. congruence. }
  rewrite <- Hsm, Hvm in Hparse_m. rewrite <- Hsm in Hdash_m.
  rewrite <- Hsd, Hvd in Hparse_d. rewrite <- Hsd in Hdash_d.
  assert (Hsplit : split_dash (Dinnercaster.dateStr_of h today)
                   = [string_of_Z y; padStart0 2 (string_of_Z (mo + 1));
                      padStart0 2 (string_of_Z dd)]).
  { rewrite dateStr_of_parts. unfold split_dash.
    assert (Hdash_y : no_dash (string_of_Z y) = true)
      by (rewrite Hsy; apply numeral_no_dash).
    rewrite (proj1 (split_dash_aux_part _ Hdash_y EmptyString _)).
    rewrite (proj1 (split_dash_aux_part _ Hdash_m EmptyString _)).
    rewrite (proj2 (split_dash_aux_part _ Hdash_d EmptyString EmptyString)).
    reflexivity. }
  split; [exact Hsplit |].
  split; [rewrite Hsplit; cbn [map]; rewrite Hparse_y, Hparse_m, Hparse_d; reflexivity |].
  assert (Htruthy : truthy (JStr (Dinnercaster.dateStr_of h today)) = true).
  { rewrite dateStr_of_parts, Hsy. simpl.
    destruct dy; [contradiction | reflexivity ..]. }
  unfold Dinnercaster.formatDate.
  rewrite Htruthy, Hsplit. cbn [negb List.length Nat.eqb nth].
  rewrite Hparse_y, Hparse_m, Hparse_d.
  assert (Hmonth : (num_or_1 (Some (mo + 1)) - 1 = mo)%Z).
  { unfold num_or_1. destruct (Z.eqb_spec (mo + 1) 0); lia. }
  assert (Hday : num_or_1 (Some dd) = dd).
  { unfold num_or_1. destruct (Z.eqb_spec dd 0); [lia | reflexivity]. }
  rewrite Hmonth, Hday.
  eexists. reflexivity.
Qed.

End DateRoundTripMain.

(** The text [y-mm-dd] of the template literal, on its own: it splits at its
    dashes into the three numerals, which [parseInt] reads back. *)
Lemma date_text_reads_back (y mo dd : Z) :
  (0 <= y)%Z -> (0 <= mo)%Z -> (1 <= dd)%Z ->
  map parseInt10
      (split_dash (string_of_Z y ++ "-" ++ padStart0 2 (string_of_Z (mo + 1))
                   ++ "-" ++ padStart0 2 (string_of_Z dd)))
  = [Some y; Some (mo + 1)%Z; Some dd].
Proof.
  intros Hy Hmo Hdd.
  destruct (string_of_Z_numeral y Hy) as (dy & Hsy & Hdy & Hvy).
  destruct (string_of_Z_numeral (mo + 1)%Z ltac:(lia)) as (dm & Hsm & Hdm & Hvm).
  destruct (string_of_Z_numeral dd ltac:(lia)) as (dd' & Hsd & Hdd' & Hvd).
  destruct (padStart0_numeral 2 dm Hdm) as [Hdash_m Hparse_m].
  destruct (padStart0_numeral 2 dd' Hdd') as [Hdash_d Hparse_d].
  assert (Hparse_y : parseInt10 (string_of_Z y) = Some y).
  { rewrite Hsy, parseInt10_digits by (apply numeral_starts_with_digit; assumption).
    rewrite parse_digits_numeral_fresh by assumption. congruence. }
  rewrite <- Hsm, Hvm in Hparse_m. rewrite <- Hsm in Hdash_m.
  rewrite <- Hsd, Hvd in Hparse_d. rewrite <- Hsd in Hdash_d.
  assert (Hdash_y : no_dash (string_of_Z y) = true)
    by (rewrite Hsy; apply numeral_no_dash).
  change (string_of_Z y ++ "-" ++ padStart0 2 (string_of_Z (mo + 1))
          ++ "-" ++ padStart0 2 (string_of_Z dd))
    with (string_of_Z y
          ++ String "-" (padStart0 2 (string_of_Z (mo + 1))
                         ++ String "-" (padStart0 2 (string_of_Z dd)))).
  unfold split_dash.
  rewrite (proj1 (split_dash_aux_part _ Hdash_y EmptyString _)).
  rewrite (proj1 (split_dash_aux_part _ Hdash_m EmptyString _)).
  rewrite (proj2 (split_dash_aux_part _ Hdash_d EmptyString EmptyString)).
  cbn [map app String.append].
  rewrite Hparse_y, Hparse_m, Hparse_d. reflexivity.
Qed.

(* ================================================================== *)
(** ** The record [addMeal] puts first *)

(** C8. On every view model [{meals: l}], [addMeal] returns at once a view
    model whose first record is new and whose other records are [l],
    unchanged and in their order.  The new record has an empty meal name and
    empty notes; its id is the one the generator makes at this draw, the
    platform's random UUID or else the upper-cased base-36 clock reading
    followed by eight characters of [Math.random]; its date is the local date
    of [new Date()], year [y], month index [mo] and day [dd], written
    [y-mm-dd] with month [mo + 1] and the day padded to two digits, a text
    that reads back as these three numbers. *)
Theorem addMeal_prepends_blank_record
    (h : Host) (l : list JsVal) (n : nat) (y mo dd : Z) :
  getFullYear h (Date_current h (S n)) = Some y ->
  getMonth h (Date_current h (S n)) = Some mo ->
  getDate h (Date_current h (S n)) = Some dd ->
  Dinnercaster.addMeal h (view_model l) n
  = Ok (view_model
          (JObj [("id",
                  JStr match crypto_randomUUID h with
                       | Some randomUUID => randomUUID n
                       | None =>
                           toUpperCase
                             (toString36 (Date_now h n)
                              ++ slice 2 10 (Math_random_toString36 h n))
                       end);
                 ("meal", JStr "");
                 ("notes", JStr "");
                 ("date",
                  JStr (string_of_Z y ++ "-" ++ padStart0 2 (string_of_Z (mo + 1))
                        ++ "-" ++ padStart0 2 (string_of_Z dd)))]
           :: l),
        S n)
  /\ ((0 <= y)%Z -> (0 <= mo)%Z -> (1 <= dd)%Z ->
      map parseInt10
          (split_dash (string_of_Z y ++ "-" ++ padStart0 2 (string_of_Z (mo + 1))
                       ++ "-" ++ padStart0 2 (string_of_Z dd)))
      = [Some y; Some (mo + 1)%Z; Some dd]).
Proof.
  intros Hyear Hmonth Hday.
  split; [| apply date_text_reads_back].
  unfold Dinnercaster.addMeal, Dinnercaster.uid, Dinnercaster.dateStr_of, bind.
  destruct (crypto_randomUUID h) as [randomUUID|];
    rewrite Hyear, Hmonth, Hday; reflexivity.
Qed.

Lemma addMeal_prepends_blank_record_witness :
  Dinnercaster.addMeal clock_host (view_model [tacos; ramen]) 0
  = Ok (view_model
          [JObj [("id", JStr "MIMDUDC04FZYO82M"); ("meal", JStr "");
                 ("notes", JStr ""); ("date", JStr "2025-12-01")];
           tacos; ramen],
        1)
  /\ map parseInt10 (split_dash "2025-12-01") = [Some 2025%Z; Some 12%Z; Some 1%Z].
Proof.
  destruct (addMeal_prepends_blank_record clock_host [tacos; ramen] 0 2025 11 1
              eq_refl eq_refl eq_refl) as [Hadd Hread].
  split.
  - exact Hadd.
  - apply Hread; lia.
Defined.


(* ================================================================== *)
(** ** The read-only variant *)

Section ReadOnlyVariant.

Variable h : Host.

Lemma ReadOnly_sync_cases (toolOutput : JsVal) (a : ReadOnly.App) :
  ReadOnly.syncToolOutput h toolOutput a = a
  \/ (truthy (opt_chain toolOutput "meals") = true
      /\ ReadOnly.syncToolOutput h toolOutput a
         = {| ReadOnly.data := JObj [("meals", opt_chain toolOutput "meals")];
              ReadOnly.lastSyncedToolOutputRef := opt_chain toolOutput "meals";
              ReadOnly.seen := ReadOnly.seen a |}).
Proof.
  unfold ReadOnly.syncToolOutput.
  destruct (truthy (opt_chain toolOutput "meals")); [| left; reflexivity].
  destruct (negb _); [right; split; reflexivity | left; reflexivity].
Qed.

Lemma ReadOnly_tracks_more (initial : JsVal) (ds ds' : list Delivery) (a : ReadOnly.App) :
  (forall d, In d ds -> In d ds') ->
  ReadOnly_tracks initial ds a -> ReadOnly_tracks initial ds' a.
Proof.
  intros Hsub [Hnone | (Ht & Hdata & d & Hd & Hlast)]; [left; assumption |].
  right. repeat split; trivial. exists d. split; [apply Hsub; assumption | assumption].
Qed.

Lemma ReadOnly_deliver_tracks (initial : JsVal) (ds : list Delivery)
    (a : ReadOnly.App) (d : Delivery) :
  ReadOnly_tracks initial ds a ->
  ReadOnly_tracks initial (d :: ds) (ReadOnly.deliver h a d).
Proof.
  intros Hinv.
  assert (Hold : ReadOnly_tracks initial (d :: ds) a)
    by (apply (ReadOnly_tracks_more initial ds); [intros; right; assumption | assumption]).
  unfold ReadOnly.deliver.
  set (a' := {| ReadOnly.data := ReadOnly.data a;
                ReadOnly.lastSyncedToolOutputRef := ReadOnly.lastSyncedToolOutputRef a;
                ReadOnly.seen := Some d |}).
  assert (Hsync : ReadOnly_tracks initial (d :: ds) (ReadOnly.syncToolOutput h (payload d) a')).
  { destruct (ReadOnly_sync_cases (payload d) a') as [-> | [Ht ->]].
    - exact Hold.
    - right. simpl. repeat split; trivial.
      exists d. split; [left; reflexivity | reflexivity]. }
  destruct (ReadOnly.seen a) as [d0|]; [| exact Hsync].
  destruct (addr d0 =? addr d)%nat; [exact Hold | exact Hsync].
Qed.

Lemma ReadOnly_run_tracks (initial : JsVal) (ds : list Delivery) :
  forall seen_before a,
    ReadOnly_tracks initial seen_before a ->
    ReadOnly_tracks initial (rev ds ++ seen_before)%list (ReadOnly_run h a ds).
Proof.
  induction ds as [|d rest IH]; intros seen_before a Hinv; simpl.
  - exact Hinv.
  - rewrite <- app_assoc. simpl. apply IH.
    apply ReadOnly_deliver_tracks. assumption.
Qed.

(** X13. Whatever is delivered to the read-only widget, and in whatever
    order, it shows either the initial view model, nothing having been synced
    yet, or [{ meals: m }] for the truthy meals [m] of one of the payloads
    delivered, and [lastSyncedToolOutputRef] holds those same meals. *)
Theorem ReadOnly_shows_initial_or_delivered
    (widgetState : JsVal) (d : Delivery) (ds : list Delivery) :
  ReadOnly_tracks (ReadOnly.initialData widgetState (payload d)) (d :: ds)
    (ReadOnly_run h (ReadOnly.mount h widgetState d) ds).
Proof.
  apply (ReadOnly_tracks_more _ (rev ds ++ [d])%list).
  - intros d' Hin. apply in_app_or in Hin as [Hin | [<- | []]].
    + right. apply in_rev. assumption.
    + left. reflexivity.
  - apply ReadOnly_run_tracks.
    unfold ReadOnly.mount.
    apply (ReadOnly_deliver_tracks _ []).
    left. split; reflexivity.
Qed.

(** What the effect has just synced it does not sync again. *)
Lemma ReadOnly_sync_again (toolOutput : JsVal) (a : ReadOnly.App) (s : option Delivery) :
  ReadOnly.syncToolOutput h toolOutput
    {| ReadOnly.data := ReadOnly.data (ReadOnly.syncToolOutput h toolOutput a);
       ReadOnly.lastSyncedToolOutputRef :=
         ReadOnly.lastSyncedToolOutputRef (ReadOnly.syncToolOutput h toolOutput a);
       ReadOnly.seen := s |}
  = {| ReadOnly.data := ReadOnly.data (ReadOnly.syncToolOutput h toolOutput a);
       ReadOnly.lastSyncedToolOutputRef :=
         ReadOnly.lastSyncedToolOutputRef (ReadOnly.syncToolOutput h toolOutput a);
       ReadOnly.seen := s |}.
Proof.
  unfold ReadOnly.syncToolOutput.
  destruct (truthy (opt_chain toolOutput "meals")
            && negb (JSON_stringify h (opt_chain toolOutput "meals")
                     =? JSON_stringify h (ReadOnly.lastSyncedToolOutputRef a))%string)
    eqn:Hcond; cbn [ReadOnly.lastSyncedToolOutputRef ReadOnly.data ReadOnly.seen].
  - rewrite String.eqb_refl, andb_false_r. reflexivity.
  - rewrite Hcond. reflexivity.
Qed.

(** X14. Delivering to the read-only widget a payload and then a payload
    with the same content, in the same object or in another, leaves it as the
    first delivery left it: the second one is skipped. *)
Theorem ReadOnly_redelivery_is_skipped (a : ReadOnly.App) (d1 d2 : Delivery) :
  (forall d0, ReadOnly.seen a = Some d0 -> addr d0 <> addr d1) ->
  payload d2 = payload d1 ->
  ReadOnly.data (ReadOnly.deliver h (ReadOnly.deliver h a d1) d2)
  = ReadOnly.data (ReadOnly.deliver h a d1)
  /\ ReadOnly.lastSyncedToolOutputRef (ReadOnly.deliver h (ReadOnly.deliver h a d1) d2)
     = ReadOnly.lastSyncedToolOutputRef (ReadOnly.deliver h a d1).
Proof.
  intros Hother Hsame.
  set (a' := {| ReadOnly.data := ReadOnly.data a;
                ReadOnly.lastSyncedToolOutputRef := ReadOnly.lastSyncedToolOutputRef a;
                ReadOnly.seen := Some d1 |}).
  assert (Hfirst : ReadOnly.deliver h a d1 = ReadOnly.syncToolOutput h (payload d1) a').
  { unfold ReadOnly.deliver. fold a'.
    destruct (ReadOnly.seen a) as [d0|] eqn:Hseen; [| reflexivity].
    destruct (Nat.eqb_spec (addr d0) (addr d1)) as [Heq|_]; [| reflexivity].
    exfalso. exact (Hother d0 eq_refl Heq). }
  rewrite Hfirst.
  set (a1 := ReadOnly.syncToolOutput h (payload d1) a').
  assert (Hseen1 : ReadOnly.seen a1 = Some d1).
  { unfold a1. destruct (ReadOnly_sync_cases (payload d1) a') as [-> | [_ ->]]; reflexivity. }
  assert (Hskip := ReadOnly_sync_again (payload d1) a').
  fold a1 in Hskip.
  unfold ReadOnly.deliver. rewrite Hseen1.
  destruct (addr d1 =? addr d2)%nat; [split; reflexivity |].
  rewrite Hsame, Hskip. split; reflexivity.
Qed.

End ReadOnlyVariant.

(* ================================================================== *)
(** ** The shape of a generated id, and the remaining edge cases *)

Section GeneratedIds.




Variable h : Host.


(** X17. [addMeal] returns exactly when the state has a [meals] property
    that is an array or a string (whose characters it then takes for the
    records); on any other state it throws a TypeError. *)
Theorem addMeal_returns_iff (prev : JsVal) (n : nat) :
  (exists r, Dinnercaster.addMeal h prev n = Ok r)
  <-> exists v, get_prop prev "meals" = Ok v
                /\ ((exists l, v = JArr l) \/ (exists s, v = JStr s)).
Proof.
  unfold Dinnercaster.addMeal, bind. rewrite uid_draw.
  split.
  - intros (r & Hr).
    destruct (get_prop prev "meals") as [v|msg]; [| discriminate Hr].
    exists v. split; [reflexivity |].
    destruct v; simpl in Hr; try discriminate Hr.
    + right. eexists. reflexivity.
    + left. eexists. reflexivity.
  - intros (v & -> & [(l & ->) | (s & ->)]); eexists; reflexivity.
Qed.


End GeneratedIds.

(* ================================================================== *)
(** ** The handlers never throw on well-formed input *)

Section Handlers.

Variable h : Host.

Lemma built_from_readable (n n' : nat) (l l' : list JsVal) :
  Forall2 (built_from h n n') l l' -> Forall (fun r => readable r = true) l'.
Proof.
  induction 1 as [| m r t t' Hbuilt _ IH]; constructor; [| exact IH].
  destruct Hbuilt as (id & -> & _). reflexivity.
Qed.

(** The body of the effect, on a well-formed payload: it returns, and what
    it returns holds an array of records if [data] did. *)
Lemma sync_keeps_records (toolOutput data : JsVal) (n : nat) (l : list JsVal) :
  payload_wellformed toolOutput ->
  get_prop data "meals" = Ok (JArr l) ->
  Forall (fun m => readable m = true) l ->
  exists v n' l',
    Dinnercaster.syncToolOutput h toolOutput data n = Ok (v, n')
    /\ get_prop v "meals" = Ok (JArr l')
    /\ Forall (fun m => readable m = true) l'.
Proof.
  intros [Hfalsy | (t & Ht & Hread)] Hdata Hl; unfold Dinnercaster.syncToolOutput.
  - rewrite Hfalsy. exists data, n, l. repeat split; assumption.
  - rewrite Ht. cbn [truthy].
    destruct (buildInitialData_from_array h toolOutput t n Ht Hread)
      as (t' & n' & Hbuilt & _ & Hrel).
    exists (view_model t'), n', t'. split; [exact Hbuilt |].
    split; [reflexivity | exact (built_from_readable _ _ _ _ Hrel)].
Qed.

Lemma deliver_keeps_records (a : Dinnercaster.App) (d : Delivery) :
  holds_records a ->
  payload_wellformed (payload d) ->
  exists a', Dinnercaster.deliver h a d = Ok a' /\ holds_records a'.
Proof.
  intros (l & Hdata & Hl) Hpayload.
  destruct (sync_keeps_records (payload d) (Dinnercaster.data a)
              (Dinnercaster.draws a) l Hpayload Hdata Hl)
    as (v & n' & l' & Hsync & Hv & Hl').
  unfold Dinnercaster.deliver.
  destruct (Dinnercaster.seen a) as [d0|].
  - destruct (addr d0 =? addr d)%nat.
    + exists a. split; [reflexivity |]. exists l. split; assumption.
    + rewrite Hsync. eexists. split; [reflexivity |].
      exists l'. split; assumption.
  - rewrite Hsync. eexists. split; [reflexivity |].
    exists l'. split; assumption.
Qed.

Lemma step_keeps_records (a : Dinnercaster.App) (e : Event) :
  holds_records a ->
  event_wellformed e ->
  exists a', Dinnercaster.step h a e = Ok a' /\ holds_records a'.
Proof.
  intros Ha He.
  destruct e as [d | | id | id val]; cbn [Dinnercaster.step].
  - apply deliver_keeps_records; assumption.
  - destruct Ha as (l & Hdata & Hl).
    rewrite (addMeal_on_array h _ l _ Hdata). eexists. split; [reflexivity |].
    eexists. split; [reflexivity |].
    apply Forall_cons; [reflexivity | exact Hl].
  - destruct Ha as (l & Hdata & Hl).
    rewrite (deleteMealById_on_array id l Hl _ Hdata).
    eexists. split; [reflexivity |].
    eexists. split; [reflexivity |].
    apply filter_readable. exact Hl.
  - destruct Ha as (l & Hdata & Hl).
    rewrite (updateMealById_on_array id l Hl val _ Hdata).
    eexists. split; [reflexivity |].
    eexists. split; [reflexivity |].
    apply map_edit_readable. exact Hl.
Qed.

Lemma run_keeps_records (es : list Event) :
  forall a,
    holds_records a ->
    Forall event_wellformed es ->
    exists a', Dinnercaster.run h a es = Ok a' /\ holds_records a'.
Proof.
  induction es as [| e rest IH]; intros a Ha Hes.
  - exists a. split; [reflexivity | exact Ha].
  - inversion Hes as [| e' rest' He Hrest]; subst.
    destruct (step_keeps_records a e Ha He) as (a1 & Hstep & Ha1).
    destruct (IH a1 Ha1 Hrest) as (a' & Hrun & Ha').
    exists a'. split; [| exact Ha'].
    cbn [Dinnercaster.run]. rewrite Hstep. exact Hrun.
Qed.

Lemma initialData_keeps_records (widgetState toolOutput : JsVal) (n : nat) :
  payload_wellformed widgetState ->
  payload_wellformed toolOutput ->
  exists v n' l,
    Dinnercaster.initialData h widgetState toolOutput n = Ok (v, n')
    /\ get_prop v "meals" = Ok (JArr l)
    /\ Forall (fun m => readable m = true) l.
Proof.
  intros Hcache Hpayload. unfold Dinnercaster.initialData.
  destruct Hcache as [Hfalsy | (l & Hl & Hread)].
  - rewrite Hfalsy.
    destruct Hpayload as [Hnone | (t & Ht & Hreadt)].
    + rewrite Hnone. exists (view_model []), n, []. repeat split. constructor.
    + rewrite Ht. cbn [truthy].
      destruct (buildInitialData_from_array h toolOutput t n Ht Hreadt)
        as (t' & n' & Hbuilt & _ & Hrel).
      exists (view_model t'), n', t'. split; [exact Hbuilt |].
      split; [reflexivity | exact (built_from_readable _ _ _ _ Hrel)].
  - rewrite Hl. cbn [truthy]. exists widgetState, n, l.
    split; [reflexivity |].
    split; [apply opt_chain_array_get_prop; exact Hl | exact Hread].
Qed.

(** X15. Mounted on a cached state and a server result whose meals fields
    are falsy or arrays of records, and then taken through any sequence of
    deliveries of such server results, additions, deletions and edits by ids
    that are primitive values, the widget's initializer, effect and handlers
    never throw, and the state they leave holds an array of records. *)
Theorem handlers_never_throw
    (widgetState : JsVal) (d : Delivery) (n : nat) (es : list Event) :
  payload_wellformed widgetState ->
  payload_wellformed (payload d) ->
  Forall event_wellformed es ->
  exists a a',
    Dinnercaster.mount h widgetState d n = Ok a
    /\ Dinnercaster.run h a es = Ok a'
    /\ holds_records a
    /\ holds_records a'.
Proof.
  intros Hcache Hpayload Hes.
  destruct (initialData_keeps_records widgetState (payload d) n Hcache Hpayload)
    as (v & n0 & l & Hinit & Hv & Hl).
  destruct (deliver_keeps_records
              {| Dinnercaster.data := v; Dinnercaster.draws := n0;
                 Dinnercaster.seen := None |} d)
    as (a & Hdeliver & Ha); [exists l; split; assumption | exact Hpayload |].
  destruct (run_keeps_records es a Ha Hes) as (a' & Hrun & Ha').
  exists a, a'. split; [| split; [exact Hrun | split; assumption]].
  unfold Dinnercaster.mount. rewrite Hinit. exact Hdeliver.
Qed.

End Handlers.

(* ================================================================== *)
(** ** The results above at concrete inputs *)

Lemma delete_after_update_discards_edit_witness :
  (edited <~ Dinnercaster.updateMealById (JStr "a1") (JObj [("notes", JStr "mild")])
               (view_model [tacos; ramen]) ;;
   Dinnercaster.deleteMealById (JStr "a1") edited)
  = Dinnercaster.deleteMealById (JStr "a1") (view_model [tacos; ramen]).
Proof.
  apply (delete_after_update_discards_edit [tacos; ramen]).
  - repeat constructor.
  - reflexivity.
  - reflexivity.
Defined.

Lemma deletions_commute_witness :
  (r <~ Dinnercaster.deleteMealById (JStr "a1") (view_model [tacos; ramen]) ;;
   Dinnercaster.deleteMealById (JStr "a1") r)
  = Dinnercaster.deleteMealById (JStr "a1") (view_model [tacos; ramen])
  /\ (r <~ Dinnercaster.deleteMealById (JStr "a1") (view_model [tacos; ramen]) ;;
      Dinnercaster.deleteMealById (JStr "b2") r)
     = (r <~ Dinnercaster.deleteMealById (JStr "b2") (view_model [tacos; ramen]) ;;
        Dinnercaster.deleteMealById (JStr "a1") r).
Proof.
  apply (deletions_commute [tacos; ramen]).
  - repeat constructor.
  - reflexivity.
  - reflexivity.
Defined.

Lemma delete_undoes_add_witness :
  (added <- Dinnercaster.addMeal clock_host (view_model [tacos; ramen]) ;;
   lift (Dinnercaster.deleteMealById (uid_at clock_host 0) added)) 0
  = Ok (view_model [tacos; ramen], 1).
Proof.
  apply (delete_undoes_add [tacos; ramen]).
  - repeat constructor.
  - intros m [<- | [<- | []]]; discriminate.
Defined.

Lemma delete_removes_one_witness :
  exists l',
    Dinnercaster.deleteMealById (JStr "b2") (view_model [tacos; ramen])
    = Ok (view_model l')
    /\ S (List.length l') = 2.
Proof.
  apply (delete_removes_one [tacos; ramen]).
  - repeat constructor.
  - reflexivity.
  - change (NoDup [JStr "a1"; JStr "b2"]).
    repeat constructor; simpl; intuition discriminate.
  - right. left. reflexivity.
Defined.

Lemma updates_of_different_ids_commute_witness :
  (r <~ Dinnercaster.updateMealById (JStr "a1") (JObj [("meal", JStr "Tac")])
          (view_model [tacos; ramen]) ;;
   Dinnercaster.updateMealById (JStr "b2") (JObj [("notes", JStr "no egg")]) r)
  = (r <~ Dinnercaster.updateMealById (JStr "b2") (JObj [("notes", JStr "no egg")])
            (view_model [tacos; ramen]) ;;
     Dinnercaster.updateMealById (JStr "a1") (JObj [("meal", JStr "Tac")]) r).
Proof.
  apply (updates_of_different_ids_commute [tacos; ramen]).
  - repeat constructor.
  - reflexivity.
  - reflexivity.
  - discriminate.
  - reflexivity.
  - reflexivity.
Defined.

Lemma built_records_normalised_witness :
  exists l' t,
    view_model [record_with_id (JStr "MIMDUDC04FZYO82M") (JObj [("meal", JStr "Soup")])]
    = view_model l'
    /\ Forall normalised_record l'
    /\ Dinnercaster.meals_of (JObj [("meals", JArr [JObj [("meal", JStr "Soup")]])])
       = JArr t
    /\ List.length l' = List.length t
    /\ 0 <= 1.
Proof.
  apply (built_records_normalised clock_host
           (JObj [("meals", JArr [JObj [("meal", JStr "Soup")]])])).
  reflexivity.
Defined.

Lemma buildInitialData_idempotent_witness :
  Dinnercaster.buildInitialData clock_host
    (view_model [record_with_id (JStr "MIMDUDC04FZYO82M") (JObj [("meal", JStr "Soup")])])
    7
  = Ok (view_model
          [record_with_id (JStr "MIMDUDC04FZYO82M") (JObj [("meal", JStr "Soup")])],
        7).
Proof.
  apply (buildInitialData_idempotent clock_host
           (JObj [("meals", JArr [JObj [("meal", JStr "Soup")]])]) _ 0 1 7).
  reflexivity.
Defined.

Lemma mount_prefers_tool_output_witness :
  (exists a n0,
      0 <= n0
      /\ Dinnercaster.mount clock_host (Dinnercaster.data edited_app)
           {| addr := 3; payload := two_meals |} 0 = Ok a
      /\ Dinnercaster.buildInitialData clock_host two_meals n0
         = Ok (Dinnercaster.data a, Dinnercaster.draws a))
  /\ Dinnercaster.mount clock_host two_meals {| addr := 4; payload := JObj [] |} 0
     = Ok {| Dinnercaster.data := two_meals;
             Dinnercaster.draws := 0;
             Dinnercaster.seen := Some {| addr := 4; payload := JObj [] |} |}.
Proof.
  split.
  - apply (proj1 (mount_prefers_tool_output clock_host (Dinnercaster.data edited_app)
                    {| addr := 3; payload := two_meals |} 0) [tacos; ramen]).
    + reflexivity.
    + repeat constructor.
  - apply (proj2 (mount_prefers_tool_output clock_host two_meals
                    {| addr := 4; payload := JObj [] |} 0)); reflexivity.
Defined.

Lemma updateMealById_writes_val_witness :
  exists l',
    Dinnercaster.updateMealById (JStr "a1") (JObj [("meal", JStr "Tac")])
      (view_model [tacos; ramen]) = Ok (view_model l')
    /\ Forall2 (fun m m' =>
                  strict_eq (id_of m) (JStr "a1") = true ->
                  forall k, opt_chain m' k
                            = merged_prop m (JObj [("meal", JStr "Tac")]) k)
               [tacos; ramen] l'.
Proof.
  apply (updateMealById_writes_val (JStr "a1") (JObj [("meal", JStr "Tac")])
           [tacos; ramen]).
  - reflexivity.
  - repeat constructor.
Defined.

Lemma added_date_reads_back_witness :
  split_dash (Dinnercaster.dateStr_of clock_host (Some 1764547200000%Z))
  = [string_of_Z 2025; padStart0 2 (string_of_Z (11 + 1)); padStart0 2 (string_of_Z 1)]
  /\ map parseInt10 (split_dash (Dinnercaster.dateStr_of clock_host (Some 1764547200000%Z)))
     = [Some 2025%Z; Some (11 + 1)%Z; Some 1%Z]
  /\ exists opts,
       Dinnercaster.formatDate clock_host 0
         (JStr (Dinnercaster.dateStr_of clock_host (Some 1764547200000%Z)))
       = Ok (toLocaleDateString clock_host
               (Date_of_ymd clock_host (Some 2025%Z) 11 1) opts).
Proof.
  apply (added_date_reads_back clock_host (Some 1764547200000%Z) 2025 11 1);
    try reflexivity; lia.
Defined.

Lemma ReadOnly_redelivery_is_skipped_witness :
  ReadOnly.data
    (ReadOnly.deliver clock_host
       (ReadOnly.deliver clock_host
          {| ReadOnly.data := view_model [];
             ReadOnly.lastSyncedToolOutputRef := JNull;
             ReadOnly.seen := None |}
          {| addr := 1; payload := two_meals |})
       {| addr := 2; payload := two_meals |})
  = ReadOnly.data
      (ReadOnly.deliver clock_host
         {| ReadOnly.data := view_model [];
            ReadOnly.lastSyncedToolOutputRef := JNull;
            ReadOnly.seen := None |}
         {| addr := 1; payload := two_meals |})
  /\ ReadOnly.lastSyncedToolOutputRef
       (ReadOnly.deliver clock_host
          (ReadOnly.deliver clock_host
             {| ReadOnly.data := view_model [];
                ReadOnly.lastSyncedToolOutputRef := JNull;
                ReadOnly.seen := None |}
             {| addr := 1; payload := two_meals |})
          {| addr := 2; payload := two_meals |})
     = ReadOnly.lastSyncedToolOutputRef
         (ReadOnly.deliver clock_host
            {| ReadOnly.data := view_model [];
               ReadOnly.lastSyncedToolOutputRef := JNull;
               ReadOnly.seen := None |}
            {| addr := 1; payload := two_meals |}).
Proof.
  apply (ReadOnly_redelivery_is_skipped clock_host).
  - intros d0 Hd0. discriminate Hd0.
  - reflexivity.
Defined.



Lemma handlers_never_throw_witness :
  exists a a',
    Dinnercaster.mount clock_host JNull {| addr := 1; payload := soup_without_id |} 0
    = Ok a
    /\ Dinnercaster.run clock_host a
         [AddMeal;
          UpdateMeal (JStr "b2") (JObj [("meal", JStr "Ramen, spicy")]);
          Deliver {| addr := 2; payload := null_meals |};
          DeleteMeal (JStr "b2");
          Deliver {| addr := 3; payload := two_meals |}]
       = Ok a'
    /\ holds_records a
    /\ holds_records a'.
Proof.
  apply (handlers_never_throw clock_host JNull
           {| addr := 1; payload := soup_without_id |} 0).
  - left. reflexivity.
  - right. exists [ramen; JObj [("meal", JStr "Soup")]].
    split; [reflexivity |].
    apply Forall_cons; [reflexivity |].
    apply Forall_cons; [reflexivity | apply Forall_nil].
  - apply Forall_cons; [exact I |].
    apply Forall_cons; [reflexivity |].
    apply Forall_cons; [left; reflexivity |].
    apply Forall_cons; [reflexivity |].
    apply Forall_cons; [| apply Forall_nil].
    right. exists [tacos; ramen]. split; [reflexivity |].
    apply Forall_cons; [reflexivity |].
    apply Forall_cons; [reflexivity | apply Forall_nil].
Defined.
